(** * eAkshi: the voice-visual query session of [src/app.jsx]

    A shallow embedding of the [App] component's session logic: speech
    output ([speak], [stopSpeaking]), the turn entry point
    ([startListening]), the recognition handlers ([onresult], [onend],
    [onerror]), frame capture, the remote vision query
    ([analyzeImageWithOpenAI], [processQuestion]) and camera switching
    ([switchCamera]).

    The component is a React function component.  Every handler is a
    closure created during one render and reads the state values of that
    render; a state setter writes the component's current state, which
    only a later render can read.  The embedding keeps the two apart:
    a [Render] is what a closure captured, a [World] is what the handlers
    act upon (current state, refs, timers and the browser's engines).

    An [async] function is split at its [await]: the part before it, and
    the part that runs once the awaited promise has settled, which takes
    the settled value and the world of that moment.  The calls that leave
    the component are recorded in the world's trace.  Layout, navigation
    and the page announcements are not part of the development. *)

From Stdlib Require Import Bool Arith List String Ascii Lia PeanoNat.
From Stdlib Require Import DecimalString.
Import ListNotations.
Local Open Scope string_scope.

(* ------------------------------------------------------------------ *)
(** ** Strings as the handlers use them *)

Module Str.

(** A string is a sequence of UTF-16 code units below 256, one [ascii]
    each.  Among these, the white space that [String.prototype.trim]
    removes is tab, line feed, vertical tab, form feed, carriage return,
    space and the no-break space U+00A0; its other white space has code
    units from 256 up, which the type does not hold. *)
Definition is_space (c : ascii) : bool :=
  let n := nat_of_ascii c in
  (((9 <=? n) && (n <=? 13)) || (n =? 32) || (n =? 160))%nat.

Fixpoint trim_start (s : string) : string :=
  match s with
  | EmptyString => EmptyString
  | String c rest => if is_space c then trim_start rest else s
  end.

(** [trim_end] drops the trailing white space: a character is kept when
    something that is kept follows it, or when it is not white space. *)
Fixpoint trim_end (s : string) : string :=
  match s with
  | EmptyString => EmptyString
  | String c rest =>
      match trim_end rest with
      | EmptyString => if is_space c then EmptyString else String c EmptyString
      | kept => String c kept
      end
  end.

Definition trim (s : string) : string := trim_end (trim_start s).

(** A string is falsy exactly when it is empty. *)
Definition truthy (s : string) : bool :=
  match s with EmptyString => false | _ => true end.

Definition startsWith (p s : string) : bool := String.prefix p s.

Fixpoint includes (needle s : string) : bool :=
  String.prefix needle s ||
  match s with
  | EmptyString => false
  | String _ rest => includes needle rest
  end.

(** Decimal rendering of a number inside a template literal. *)
Definition of_nat (n : nat) : string := NilEmpty.string_of_uint (Nat.to_uint n).

Definition quote : string := String (ascii_of_nat 34) EmptyString.
Definition nl : string := String (ascii_of_nat 10) EmptyString.

End Str.

(* ------------------------------------------------------------------ *)
(** ** Data model *)

Inductive Page := home | chat | settings | camera.

Inductive CameraMode := user | environment.

(** The values of [PermissionState] that the component stores; the state
    variable is [null] (here [None]) until the first query answers. *)
Inductive Permission := granted | denied | prompt.

Definition CameraMode_eqb (a b : CameraMode) : bool :=
  match a, b with
  | user, user | environment, environment => true
  | _, _ => false
  end.

Definition is_granted (p : option Permission) : bool :=
  match p with Some granted => true | _ => false end.

(** A media stream handed out by [getUserMedia]; [stream_facing] is the
    camera it shows. *)
Record MediaStream := mkStream { stream_id : nat; stream_facing : CameraMode }.

Definition MediaStream_eqb (a b : MediaStream) : bool :=
  (stream_id a =? stream_id b)%nat && CameraMode_eqb (stream_facing a) (stream_facing b).

(** The component state, one field per [useState] of the session core. *)
Record AppState := mkState {
  isListening : bool;
  isCameraActive : bool;
  currentPage : Page;
  assistantResponse : string;
  cameraMode : CameraMode;
  mediaStream : option MediaStream;
  isProcessing : bool;
  capturedImage : option string;
  isSpeaking : bool;
  speechEnabled : bool;
  currentQuestion : string;
  error : option string;
  isVoicesLoaded : bool;
  microphonePermission : option Permission
}.

(** What a closure created during a render sees: the constants computed
    when the component body ran, the module-level credential, and the
    state values of that render. *)
Record Render := mkRender {
  hasSpeechRecognition : bool;
  hasSpeechSynthesis : bool;
  OPENAI_API_KEY : option string;
  view : AppState
}.

(** [!error]: the error state is falsy when it is [null] or empty. *)
Definition error_falsy (e : option string) : bool :=
  match e with
  | None => true
  | Some m => negb (Str.truthy m)
  end.

(** Completion callbacks handed to [speak], as data.  [CbExternal] stands
    for a callback of some caller outside the session core: running it
    only leaves a mark in the trace. *)
Inductive Callback :=
| CbExternal (id : nat)
| CbStartRecognition (r : Render)
| CbProcessQuestion (r : Render) (transcript : string).

Record Voice := mkVoice { voice_name : string; voice_lang : string; localService : bool }.

(** A [SpeechSynthesisUtterance] with the handlers [speak] attaches: the
    handlers close over the completion callback. *)
Record Utterance := mkUtterance {
  u_text : string;
  u_voice : option Voice;
  u_onEnd : option Callback
}.

(** What a pending [setTimeout] will run. *)
Inductive TimerAction :=
| TAttemptSpeak (r : Render) (text : string) (cb : option Callback)
| TWatchdog (r : Render)
| TRestartRecognition.

Record Timer := mkTimer { timer_id : nat; timer_delay : nat; timer_action : TimerAction }.

Record Video := mkVideo {
  readyState : nat;
  videoWidth : nat;
  videoHeight : nat;
  frame : string;                       (* what the canvas encodes from the current frame *)
  srcObject : option MediaStream
}.

Record Canvas := mkCanvas { has2d : bool; canvas_width : nat; canvas_height : nat }.

(** The body of the one request the vision query sends. *)
Record Request := mkRequest {
  req_url : string;
  req_authorization : string;
  req_model : string;
  req_prompt : string;
  req_image : string;
  req_detail : string;
  req_max_tokens : nat
}.

(** Calls that leave the component, in the order they are made. *)
Inductive Effect :=
| EvCallback (id : nat)
| EvSynthSpeak (u : Utterance)
| EvSynthCancel
| EvRecognitionStart
| EvRecognitionStop
| EvTrackStop (s : MediaStream)
| EvGetUserMedia (mode : CameraMode)
| EvFetch (req : Request).

(** Everything the handlers act upon. *)
Record World := mkWorld {
  st : AppState;                        (* the component's current state *)
  recognitionRef : option Render;       (* the recognition object; its handlers close over this render *)
  utteranceRef : option Utterance;
  speechTimeoutRef : option nat;
  videoRef : option Video;
  canvasRef : option Canvas;
  timers : list Timer;                  (* pending timeouts *)
  next_timer : nat;
  voices : list Voice;                  (* speechSynthesis.getVoices() *)
  synth_queue : list Utterance;         (* speaking or pending utterances *)
  synth_cancelled : list Utterance;     (* cancelled, their error event not yet delivered *)
  synth_fails : bool;                   (* speechSynthesis.speak throws *)
  rec_started : bool;                   (* the recognition object is running *)
  live_streams : list MediaStream;      (* streams whose tracks are live *)
  trace : list Effect                   (* newest first *)
}.

(* ------------------------------------------------------------------ *)
(** ** State setters *)

(** The [useState] setters: each replaces one field of the current state. *)
Definition with_isListening (v : bool) (s : AppState) : AppState :=
  mkState v (isCameraActive s) (currentPage s) (assistantResponse s) (cameraMode s)
    (mediaStream s) (isProcessing s) (capturedImage s) (isSpeaking s) (speechEnabled s)
    (currentQuestion s) (error s) (isVoicesLoaded s) (microphonePermission s).

Definition with_assistantResponse (v : string) (s : AppState) : AppState :=
  mkState (isListening s) (isCameraActive s) (currentPage s) v (cameraMode s)
    (mediaStream s) (isProcessing s) (capturedImage s) (isSpeaking s) (speechEnabled s)
    (currentQuestion s) (error s) (isVoicesLoaded s) (microphonePermission s).

Definition with_cameraMode (v : CameraMode) (s : AppState) : AppState :=
  mkState (isListening s) (isCameraActive s) (currentPage s) (assistantResponse s) v
    (mediaStream s) (isProcessing s) (capturedImage s) (isSpeaking s) (speechEnabled s)
    (currentQuestion s) (error s) (isVoicesLoaded s) (microphonePermission s).

Definition with_mediaStream (v : option MediaStream) (s : AppState) : AppState :=
  mkState (isListening s) (isCameraActive s) (currentPage s) (assistantResponse s) (cameraMode s)
    v (isProcessing s) (capturedImage s) (isSpeaking s) (speechEnabled s)
    (currentQuestion s) (error s) (isVoicesLoaded s) (microphonePermission s).

Definition with_isProcessing (v : bool) (s : AppState) : AppState :=
  mkState (isListening s) (isCameraActive s) (currentPage s) (assistantResponse s) (cameraMode s)
    (mediaStream s) v (capturedImage s) (isSpeaking s) (speechEnabled s)
    (currentQuestion s) (error s) (isVoicesLoaded s) (microphonePermission s).

Definition with_capturedImage (v : option string) (s : AppState) : AppState :=
  mkState (isListening s) (isCameraActive s) (currentPage s) (assistantResponse s) (cameraMode s)
    (mediaStream s) (isProcessing s) v (isSpeaking s) (speechEnabled s)
    (currentQuestion s) (error s) (isVoicesLoaded s) (microphonePermission s).

Definition with_isSpeaking (v : bool) (s : AppState) : AppState :=
  mkState (isListening s) (isCameraActive s) (currentPage s) (assistantResponse s) (cameraMode s)
    (mediaStream s) (isProcessing s) (capturedImage s) v (speechEnabled s)
    (currentQuestion s) (error s) (isVoicesLoaded s) (microphonePermission s).

Definition with_currentQuestion (v : string) (s : AppState) : AppState :=
  mkState (isListening s) (isCameraActive s) (currentPage s) (assistantResponse s) (cameraMode s)
    (mediaStream s) (isProcessing s) (capturedImage s) (isSpeaking s) (speechEnabled s)
    v (error s) (isVoicesLoaded s) (microphonePermission s).

Definition with_error (v : option string) (s : AppState) : AppState :=
  mkState (isListening s) (isCameraActive s) (currentPage s) (assistantResponse s) (cameraMode s)
    (mediaStream s) (isProcessing s) (capturedImage s) (isSpeaking s) (speechEnabled s)
    (currentQuestion s) v (isVoicesLoaded s) (microphonePermission s).

Definition with_microphonePermission (v : option Permission) (s : AppState) : AppState :=
  mkState (isListening s) (isCameraActive s) (currentPage s) (assistantResponse s) (cameraMode s)
    (mediaStream s) (isProcessing s) (capturedImage s) (isSpeaking s) (speechEnabled s)
    (currentQuestion s) (error s) (isVoicesLoaded s) v.

(** Field updates of the world. *)
Definition upd_st (f : AppState -> AppState) (w : World) : World :=
  mkWorld (f (st w)) (recognitionRef w) (utteranceRef w) (speechTimeoutRef w) (videoRef w)
    (canvasRef w) (timers w) (next_timer w) (voices w) (synth_queue w) (synth_cancelled w)
    (synth_fails w) (rec_started w) (live_streams w) (trace w).

Definition set_utteranceRef (v : option Utterance) (w : World) : World :=
  mkWorld (st w) (recognitionRef w) v (speechTimeoutRef w) (videoRef w)
    (canvasRef w) (timers w) (next_timer w) (voices w) (synth_queue w) (synth_cancelled w)
    (synth_fails w) (rec_started w) (live_streams w) (trace w).

Definition set_speechTimeoutRef (v : option nat) (w : World) : World :=
  mkWorld (st w) (recognitionRef w) (utteranceRef w) v (videoRef w)
    (canvasRef w) (timers w) (next_timer w) (voices w) (synth_queue w) (synth_cancelled w)
    (synth_fails w) (rec_started w) (live_streams w) (trace w).

Definition set_videoRef (v : option Video) (w : World) : World :=
  mkWorld (st w) (recognitionRef w) (utteranceRef w) (speechTimeoutRef w) v
    (canvasRef w) (timers w) (next_timer w) (voices w) (synth_queue w) (synth_cancelled w)
    (synth_fails w) (rec_started w) (live_streams w) (trace w).

Definition set_canvasRef (v : option Canvas) (w : World) : World :=
  mkWorld (st w) (recognitionRef w) (utteranceRef w) (speechTimeoutRef w) (videoRef w)
    v (timers w) (next_timer w) (voices w) (synth_queue w) (synth_cancelled w)
    (synth_fails w) (rec_started w) (live_streams w) (trace w).

Definition set_timers (v : list Timer) (n : nat) (w : World) : World :=
  mkWorld (st w) (recognitionRef w) (utteranceRef w) (speechTimeoutRef w) (videoRef w)
    (canvasRef w) v n (voices w) (synth_queue w) (synth_cancelled w)
    (synth_fails w) (rec_started w) (live_streams w) (trace w).

Definition set_synth (q c : list Utterance) (w : World) : World :=
  mkWorld (st w) (recognitionRef w) (utteranceRef w) (speechTimeoutRef w) (videoRef w)
    (canvasRef w) (timers w) (next_timer w) (voices w) q c
    (synth_fails w) (rec_started w) (live_streams w) (trace w).

Definition set_rec_started (v : bool) (w : World) : World :=
  mkWorld (st w) (recognitionRef w) (utteranceRef w) (speechTimeoutRef w) (videoRef w)
    (canvasRef w) (timers w) (next_timer w) (voices w) (synth_queue w) (synth_cancelled w)
    (synth_fails w) v (live_streams w) (trace w).

Definition set_live_streams (v : list MediaStream) (w : World) : World :=
  mkWorld (st w) (recognitionRef w) (utteranceRef w) (speechTimeoutRef w) (videoRef w)
    (canvasRef w) (timers w) (next_timer w) (voices w) (synth_queue w) (synth_cancelled w)
    (synth_fails w) (rec_started w) v (trace w).

Definition emit (e : Effect) (w : World) : World :=
  mkWorld (st w) (recognitionRef w) (utteranceRef w) (speechTimeoutRef w) (videoRef w)
    (canvasRef w) (timers w) (next_timer w) (voices w) (synth_queue w) (synth_cancelled w)
    (synth_fails w) (rec_started w) (live_streams w) (e :: trace w).

Definition setIsListening v := upd_st (with_isListening v).
Definition setAssistantResponse v := upd_st (with_assistantResponse v).
Definition setCameraMode v := upd_st (with_cameraMode v).
Definition setMediaStream v := upd_st (with_mediaStream v).
Definition setIsProcessing v := upd_st (with_isProcessing v).
Definition setCapturedImage v := upd_st (with_capturedImage v).
Definition setIsSpeaking v := upd_st (with_isSpeaking v).
Definition setCurrentQuestion v := upd_st (with_currentQuestion v).
Definition setError v := upd_st (with_error v).
Definition setMicrophonePermission v := upd_st (with_microphonePermission v).

(** How a block of statements ends. *)
Inductive Completion := Normal | Thrown.

(* ------------------------------------------------------------------ *)
(** ** Timers and the browser's engines *)

(** [setTimeout]: registers the action and returns its identifier.  The
    identifiers of a browser are positive, so a stored identifier is
    always truthy; the refs hold [None] for [null]. *)
Definition setTimeout (a : TimerAction) (delay : nat) (w : World) : nat * World :=
  let id := next_timer w in
  (id, set_timers (mkTimer id delay a :: timers w) (S id) w).

Definition clearTimeout (id : nat) (w : World) : World :=
  set_timers (filter (fun t => negb (timer_id t =? id)%nat) (timers w)) (next_timer w) w.

(** [speechSynthesis.speaking || speechSynthesis.pending]. *)
Definition synth_busy (w : World) : bool :=
  match synth_queue w with [] => false | _ => true end.

(** [speechSynthesis.cancel()]: the queue is emptied; the engine owes each
    removed utterance its error event. *)
Definition synth_cancel (w : World) : World :=
  emit EvSynthCancel (set_synth [] (synth_queue w ++ synth_cancelled w) w).

(** [recognition.start()]: throws when the object is already running. *)
Definition recognition_start (w : World) : World * Completion :=
  let w1 := emit EvRecognitionStart w in
  if rec_started w then (w1, Thrown) else (set_rec_started true w1, Normal).

Definition recognition_stop (w : World) : World := emit EvRecognitionStop w.

(** [track.stop()] on every track of a stream. *)
Definition stop_tracks (s : MediaStream) (w : World) : World :=
  emit (EvTrackStop s)
    (set_live_streams (filter (fun x => negb (MediaStream_eqb x s)) (live_streams w)) w).

(* ------------------------------------------------------------------ *)
(** ** Speech output *)

(** [if (speechTimeoutRef.current) clearTimeout(speechTimeoutRef.current)]. *)
Definition clear_speech_timeout (w : World) : World :=
  match speechTimeoutRef w with
  | Some id => clearTimeout id w
  | None => w
  end.

Definition stopSpeaking (r : Render) (w : World) : World :=
  if negb (hasSpeechSynthesis r) then w      (* the access throws; the catch only logs *)
  else
    let w1 := if synth_busy w then synth_cancel w else w in
    let w2 := clear_speech_timeout w1 in
    set_utteranceRef None (setIsSpeaking false w2).

Definition english (v : Voice) : bool := Str.startsWith "en" (voice_lang v).

Definition branded (v : Voice) : bool :=
  Str.includes "Google" (voice_name v) || Str.includes "Microsoft" (voice_name v)
  || Str.includes "Natural" (voice_name v).

Definition orElse {A} (a b : option A) : option A :=
  match a with Some _ => a | None => b end.

Definition preferredVoice (vs : list Voice) : option Voice :=
  orElse (find (fun v => english v && branded v) vs)
    (orElse (find (fun v => english v && localService v) vs)
       (find english vs)).

(** [Math.max(text.length * 100, 5000)], in milliseconds. *)
Definition watchdog_delay (text : string) : nat := Nat.max (String.length text * 100) 5000.

(** The inner function [attemptSpeak] of [speak]. *)
Definition attemptSpeak (r : Render) (text : string) (cb : option Callback) (w : World)
  : World * Completion :=
  let vs := voices w in
  if (List.length vs =? 0)%nat && negb (isVoicesLoaded (view r)) then
    let '(id, w1) := setTimeout (TAttemptSpeak r text cb) 100 w in
    (set_speechTimeoutRef (Some id) w1, Normal)
  else
    let u := mkUtterance (Str.trim text) (preferredVoice vs) cb in
    let w1 := set_utteranceRef (Some u) w in
    let w2 := emit (EvSynthSpeak u) w1 in
    if synth_fails w then (w2, Thrown)
    else
      let w3 := set_synth (synth_queue w2 ++ [u]) (synth_cancelled w2) w2 in
      let '(id, w4) := setTimeout (TWatchdog r) (watchdog_delay text) w3 in
      (set_speechTimeoutRef (Some id) w4, Normal).

(** The guard at the top of [speak]: when it holds nothing is spoken. *)
Definition speech_unavailable (r : Render) (text : string) : bool :=
  negb (speechEnabled (view r)) || negb (hasSpeechSynthesis r)
  || negb (Str.truthy (Str.trim text)) || negb (is_granted (microphonePermission (view r))).

Section Speak.

(** How a completion callback runs; tied below, once the callbacks of
    the session are defined. *)
Variable run : Callback -> World -> World.

Definition invoke (cb : option Callback) (w : World) : World :=
  match cb with
  | Some c => run c w
  | None => w
  end.

Definition speak_with (r : Render) (text : string) (cb : option Callback) (w : World) : World :=
  if speech_unavailable r text then invoke cb w
  else
    let w1 := stopSpeaking r w in
    let w2 := clear_speech_timeout w1 in
    match attemptSpeak r text cb w2 with
    | (w3, Normal) => w3
    | (w3, Thrown) => invoke cb (set_utteranceRef None (setIsSpeaking false w3))
    end.

(** The handlers of an utterance. *)
Definition utterance_onstart (u : Utterance) (w : World) : World := setIsSpeaking true w.

Definition utterance_onend (u : Utterance) (w : World) : World :=
  invoke (u_onEnd u) (set_utteranceRef None (setIsSpeaking false w)).

Definition utterance_onerror (u : Utterance) (code : string) (w : World) : World :=
  invoke (u_onEnd u) (set_utteranceRef None (setIsSpeaking false w)).

End Speak.

(** A [speak] call without a completion callback. *)
Definition say (r : Render) (text : string) (w : World) : World :=
  speak_with (fun _ w => w) r text None w.

(** The watchdog armed by [attemptSpeak]: it tests the [isSpeaking] of the
    render whose [speak] armed it. *)
Definition watchdog (r : Render) (w : World) : World :=
  if isSpeaking (view r) then set_utteranceRef None (setIsSpeaking false w) else w.

(* ------------------------------------------------------------------ *)
(** ** The remote vision query *)

Module Query.

#[local] Set Warnings "-register-all".

(** Parsed JSON.  Numbers are restricted to naturals: the function only
    tests them for truthiness or prints them. *)
Inductive Json :=
| JNull
| JBool (b : bool)
| JNum (n : nat)
| JStr (s : string)
| JArr (items : list Json)
| JObj (fields : list (string * Json)).

Definition truthy (j : Json) : bool :=
  match j with
  | JNull => false
  | JBool b => b
  | JNum n => negb (n =? 0)%nat
  | JStr s => Str.truthy s
  | JArr _ | JObj _ => true
  end.

(** The binding of a key in an object; [JSON.parse] keeps the last of
    several bindings of one key. *)
Fixpoint lookup (k : string) (fields : list (string * Json)) : option Json :=
  match fields with
  | [] => None
  | (k', v) :: rest =>
      match lookup k rest with
      | Some later => Some later
      | None => if String.eqb k k' then Some v else None
      end
  end.

(** [v.name] for a value that is neither [null] nor [undefined], and a
    name that no prototype defines; [None] is [undefined]. *)
Definition prop (name : string) (v : Json) : option Json :=
  match v with
  | JObj fields => lookup name fields
  | _ => None
  end.

(** [v[0]] for a value that is neither [null] nor [undefined]. *)
Definition index0 (v : Json) : option Json :=
  match v with
  | JArr items => hd_error items
  | JObj fields => lookup "0" fields
  | JStr (String c _) => Some (JStr (String c EmptyString))
  | _ => None
  end.

(** A value inside a template literal. *)
Fixpoint to_text (j : Json) : string :=
  match j with
  | JNull => "null"
  | JBool true => "true"
  | JBool false => "false"
  | JNum n => Str.of_nat n
  | JStr s => s
  | JArr items =>
      (fix join (l : list Json) : string :=
         match l with
         | [] => ""
         | x :: rest =>
             let shown := match x with JNull => "" | _ => to_text x end in
             match rest with
             | [] => shown
             | _ => shown ++ "," ++ join rest
             end
         end) items
  | JObj _ => "[object Object]"
  end.

Inductive Body :=
| Unparsable (message : string)         (* response.json() rejects *)
| Parsed (data : Json).

Record Response := mkResponse { status : nat; statusText : string; body : Body }.

(** [response.ok]: the status is in the range 200 to 299. *)
Definition ok (resp : Response) : bool :=
  ((200 <=? status resp) && (status resp <=? 299))%nat.

Inductive FetchOutcome :=
| FetchRejected (message : string)      (* no response at all *)
| FetchResolved (resp : Response).

(** The result of a call: a value, or a thrown [Error] with its
    [message]. *)
Inductive Outcome (A : Type) :=
| Returned (a : A)
| Threw (message : string).
Arguments Returned {A} a.
Arguments Threw {A} message.

Definition OPENAI_API_URL : string := "https://api.openai.com/v1/chat/completions".

Definition unconfigured_message : string :=
  "OpenAI API key is not configured. Please check your environment variables.".

Definition invalid_response_message : string := "Invalid response from AI service".

(** The message of the [TypeError] that reading a property of [null]
    raises (V8's wording). *)
Definition null_access_message : string :=
  "Cannot read properties of null (reading 'choices')".

Definition prompt_for (question : string) : string :=
  "You are a visual assistant helping users understand what they see. Analyze this image and answer the question: "
  ++ Str.quote ++ question ++ Str.quote ++ Str.nl ++ Str.nl
  ++ "Please provide a clear, detailed, and helpful response. Focus on:" ++ Str.nl
  ++ "- Being descriptive and specific about what you observe" ++ Str.nl
  ++ "- Answering the user's question directly" ++ Str.nl
  ++ "- Including relevant details about colors, objects, people, text, or scenes" ++ Str.nl
  ++ "- Keeping the response conversational and accessible" ++ Str.nl
  ++ "- If there's text in the image, read it accurately" ++ Str.nl
  ++ "- If asked about safety or navigation, provide practical guidance" ++ Str.nl ++ Str.nl
  ++ "Keep your response under 200 words but be thorough and helpful.".

Definition build_request (key imageDataUrl question : string) : Request :=
  mkRequest OPENAI_API_URL ("Bearer " ++ key) "gpt-4o" (prompt_for question)
    imageDataUrl "low" 1024.

(** [errorData?.error?.message || response.statusText], printed. *)
Definition upstream_text (errorData : Json) (resp : Response) : string :=
  let err := match errorData with JNull => None | _ => prop "error" errorData end in
  let msg := match err with
             | None | Some JNull => None
             | Some e => prop "message" e
             end in
  match msg with
  | Some m => if truthy m then to_text m else statusText resp
  | None => statusText resp
  end.

Definition api_failed_message (resp : Response) (errorData : Json) : string :=
  "API request failed: " ++ Str.of_nat (status resp) ++ " - " ++ upstream_text errorData resp.

(** [data.choices && data.choices[0] && data.choices[0].message &&
    data.choices[0].message.content]: the content when every link is
    truthy. *)
Definition answer_of (data : Json) : option Json :=
  match prop "choices" data with
  | Some choices =>
      if truthy choices then
        match index0 choices with
        | Some first =>
            if truthy first then
              match prop "message" first with
              | Some message =>
                  if truthy message then
                    match prop "content" message with
                    | Some content => if truthy content then Some content else None
                    | None => None
                    end
                  else None
              | None => None
              end
            else None
        | None => None
        end
      else None
  | None => None
  end.

(** The function from the point where [fetch] has settled.  The [catch]
    rethrows what it caught. *)
Definition after_fetch (net : FetchOutcome) : Outcome Json :=
  match net with
  | FetchRejected m => Threw m
  | FetchResolved resp =>
      if negb (ok resp) then
        match body resp with
        | Unparsable m => Threw m
        | Parsed errorData => Threw (api_failed_message resp errorData)
        end
      else
        match body resp with
        | Unparsable m => Threw m
        | Parsed JNull => Threw null_access_message
        | Parsed data =>
            match answer_of data with
            | Some content => Returned content
            | None => Threw invalid_response_message
            end
        end
  end.

Definition key_present (key : option string) : option string :=
  match key with
  | Some k => if Str.truthy k then Some k else None
  | None => None
  end.

(** [analyzeImageWithOpenAI]: the requests it sends and how it ends,
    given what the network answers to a request. *)
Definition analyzeImageWithOpenAI (key : option string) (network : Request -> FetchOutcome)
    (imageDataUrl question : string) : list Request * Outcome Json :=
  match key_present key with
  | None => ([], Threw unconfigured_message)
  | Some k =>
      let req := build_request k imageDataUrl question in
      ([req], after_fetch (network req))
  end.

(** The function is declared to return a string; an answer of another
    JSON kind is outside that type. *)
Definition typed (o : Outcome Json) : option (Outcome string) :=
  match o with
  | Returned (JStr s) => Some (Returned s)
  | Returned _ => None
  | Threw m => Some (Threw m)
  end.

End Query.

(* ------------------------------------------------------------------ *)
(** ** Frame capture and the analysis of a question *)

(** [captureImage]: the encoded current frame, or [null]. *)
Definition captureImage (w : World) : option string * World :=
  match videoRef w, canvasRef w with
  | Some video, Some canvas =>
      if (readyState video <? 2)%nat || (videoWidth video =? 0)%nat then (None, w)
      else if negb (has2d canvas) then (None, w)
      else (Some (frame video),
            set_canvasRef (Some (mkCanvas true (videoWidth video) (videoHeight video))) w)
  | _, _ => (None, w)
  end.

Definition camera_inactive_message : string :=
  "Camera is not active. Please turn on the camera first.".
Definition capture_failed_message : string :=
  "Unable to capture image. Please ensure the camera is working.".
Definition analysis_failed_message : string :=
  "Sorry, I encountered an error analyzing the image. Please try again.".

(** Where an [async] function stands after running: finished, or
    suspended at the [await] of the request it sent. *)
Inductive Suspension :=
| Finished
| AwaitingFetch (req : Request).

(** The [catch] and [finally] blocks of [processQuestion]. *)
Definition processQuestion_catch (r : Render) (message : string) (w : World) : World :=
  let errorMessage := if Str.truthy message then message else analysis_failed_message in
  let w1 := setError (Some errorMessage) w in
  let w2 := setAssistantResponse errorMessage w1 in
  let w3 := say r errorMessage w2 in
  setIsProcessing false w3.

(** [processQuestion] up to its first suspension.  A missing credential
    makes [analyzeImageWithOpenAI] reject before it sends anything, and
    the rejection is handled before any other event. *)
Definition processQuestion_begin (r : Render) (question : string) (w : World)
  : World * Suspension :=
  if negb (isCameraActive (view r)) then
    let w1 := setError (Some camera_inactive_message) w in
    let w2 := say r camera_inactive_message w1 in
    (setIsProcessing false w2, Finished)
  else
    let '(image, w0) := captureImage w in
    match image with
    | None | Some EmptyString =>
        let w1 := setError (Some capture_failed_message) w0 in
        let w2 := say r capture_failed_message w1 in
        (setIsProcessing false (setIsProcessing false w2), Finished)
    | Some imageDataUrl =>
        let w1 := setCapturedImage (Some imageDataUrl) w0 in
        match Query.key_present (OPENAI_API_KEY r) with
        | None => (processQuestion_catch r Query.unconfigured_message w1, Finished)
        | Some k =>
            let req := Query.build_request k imageDataUrl question in
            (emit (EvFetch req) w1, AwaitingFetch req)
        end
    end.

(** [processQuestion] from the point where the awaited analysis has
    settled, in the world of that moment. *)
Definition processQuestion_resume (r : Render) (settled : Query.Outcome string) (w : World)
  : World :=
  match settled with
  | Query.Returned response =>
      let w1 := setAssistantResponse response w in
      let w2 := setError None w1 in
      let w3 := say r response w2 in
      setIsProcessing false w3
  | Query.Threw message => processQuestion_catch r message w
  end.

(** A whole call: [between] is whatever the other handlers do to the
    world while the request is in flight. *)
Definition processQuestion (r : Render) (question : string)
    (settled : Query.Outcome string) (between : World -> World) (w : World) : World :=
  match processQuestion_begin r question w with
  | (w1, Finished) => w1
  | (w1, AwaitingFetch _) => processQuestion_resume r settled (between w1)
  end.

(* ------------------------------------------------------------------ *)
(** ** Starting a turn *)

Definition unsupported_message : string :=
  "Speech recognition is not supported in this browser. Please try Chrome or Edge.".
Definition microphone_required_message : string :=
  "Microphone permission is required to ask questions. Please allow access.".
Definition camera_required_message : string := "Please turn on the camera first.".
Definition listening_prompt : string :=
  "I'm listening. Please ask your question about what I see.".
Definition cannot_start_message : string :=
  "Unable to start voice recognition. Please try again.".

(** The completion callback of the listening prompt. *)
Definition startListening_prompted (r : Render) (w : World) : World :=
  match recognitionRef w with
  | Some _ =>
      if negb (isListening (view r)) then
        match recognition_start w with
        | (w1, Normal) => w1
        | (w1, Thrown) =>
            let w2 := setError (Some cannot_start_message) w1 in
            let w3 := say r cannot_start_message w2 in
            setIsProcessing false w3
        end
      else w
  | None => w
  end.

(** Running a completion callback. *)
Definition run_callback (c : Callback) (w : World) : World :=
  match c with
  | CbExternal id => emit (EvCallback id) w
  | CbStartRecognition r => startListening_prompted r w
  | CbProcessQuestion r transcript => fst (processQuestion_begin r transcript w)
  end.

(** [speak(text, onEndCallback)]. *)
Definition speak (r : Render) (text : string) (cb : option Callback) (w : World) : World :=
  speak_with run_callback r text cb w.

Definition startListening (r : Render) (w : World) : World :=
  if negb (hasSpeechRecognition r) then
    say r unsupported_message (setError (Some unsupported_message) w)
  else if negb (is_granted (microphonePermission (view r))) then
    say r microphone_required_message (setError (Some microphone_required_message) w)
  else if negb (isCameraActive (view r)) then
    say r camera_required_message (setError (Some camera_required_message) w)
  else if isListening (view r) || isProcessing (view r) then
    let w1 := match recognitionRef w with
              | Some _ => recognition_stop w
              | None => w
              end in
    setIsProcessing false w1
  else
    let w1 := setIsProcessing true w in
    let w2 := setCurrentQuestion "" w1 in
    let w3 := setAssistantResponse "" w2 in
    let w4 := setError None w3 in
    speak r listening_prompt (Some (CbStartRecognition r)) w4.

(* ------------------------------------------------------------------ *)
(** ** The recognition handlers *)

Definition not_caught_message : string :=
  "I didn't catch that clearly. Please try asking your question again.".

Definition heard_message (transcript : string) : string :=
  "I heard: " ++ transcript ++ ". Let me analyze what I can see.".

Definition recognition_onstart (r : Render) (w : World) : World :=
  setError None (setIsListening true w).

(** [onresult], given the transcript of [event.results[0][0]]. *)
Definition recognition_onresult (r : Render) (heard : string) (w : World) : World :=
  let transcript := Str.trim heard in
  if Str.truthy transcript && (2 <? String.length transcript)%nat then
    let w1 := setCurrentQuestion transcript w in
    speak r (heard_message transcript) (Some (CbProcessQuestion r transcript)) w1
  else
    let w1 := say r not_caught_message w in
    setIsProcessing false w1.

Definition restart_delay : nat := 500.

Definition recognition_onend (r : Render) (w : World) : World :=
  let w1 := setIsListening false w in
  if error_falsy (error (view r)) && isCameraActive (view r)
     && is_granted (microphonePermission (view r))
  then snd (setTimeout TRestartRecognition restart_delay w1)
  else w1.

(** The function the restart timer runs. *)
Definition restartRecognition (w : World) : World :=
  match recognitionRef w with
  | Some _ => fst (recognition_start w)      (* a throw is only logged *)
  | None => w
  end.

Definition access_denied_message : string :=
  "Microphone access denied. Please allow microphone permissions and try again.".
Definition no_speech_message : string :=
  "No speech detected. Please try speaking more clearly.".
Definition no_microphone_message : string :=
  "No microphone found. Please check your microphone.".
Definition network_message : string :=
  "Network error. Please check your internet connection.".
Definition recognition_failed_message : string :=
  "Speech recognition failed. Please try again.".

Definition recognition_onerror (r : Render) (code : string) (w : World) : World :=
  let w0 := setIsListening false w in
  let '(errorMessage, shouldSpeak, w1) :=
    if String.eqb code "not-allowed" || String.eqb code "service-not-allowed" then
      (access_denied_message, true, setMicrophonePermission (Some denied) w0)
    else if String.eqb code "no-speech" then (no_speech_message, false, w0)
    else if String.eqb code "audio-capture" then (no_microphone_message, true, w0)
    else if String.eqb code "network" then (network_message, true, w0)
    else if String.eqb code "aborted" then ("", false, w0)
    else (recognition_failed_message, true, w0) in
  let w2 :=
    if Str.truthy errorMessage then
      let w' := setError (Some errorMessage) w1 in
      if shouldSpeak then say r errorMessage w' else w'
    else w1 in
  setIsProcessing false w2.

(* ------------------------------------------------------------------ *)
(** ** Switching the camera *)

Definition opposite (m : CameraMode) : CameraMode :=
  match m with user => environment | environment => user end.

Definition facing_name (m : CameraMode) : string :=
  match m with user => "front" | environment => "back" end.

Definition mode_set_message (m : CameraMode) : string :=
  "Camera mode set to " ++ facing_name m ++ " camera.".
Definition switched_message (m : CameraMode) : string :=
  "Switched to " ++ facing_name m ++ " camera.".
Definition switch_failed_message : string := "Unable to switch camera. Please try again.".

(** What [getUserMedia] answers. *)
Inductive UserMedia :=
| Granted (stream : MediaStream)
| Refused (name : string).

(** [switchCamera] up to the [await] of [getUserMedia]; the flag tells
    whether it is suspended there. *)
Definition switchCamera_begin (r : Render) (w : World) : World * bool :=
  let newMode := opposite (cameraMode (view r)) in
  let w1 := setCameraMode newMode w in
  match isCameraActive (view r), mediaStream (view r) with
  | true, Some old =>
      let w2 := stop_tracks old w1 in
      (emit (EvGetUserMedia newMode) w2, true)
  | _, _ => (say r (mode_set_message newMode) w1, false)
  end.

Definition bind_video (stream : MediaStream) (w : World) : World :=
  match videoRef w with
  | Some v => set_videoRef (Some (mkVideo (readyState v) (videoWidth v) (videoHeight v)
                                      (frame v) (Some stream))) w
  | None => w
  end.

(** [switchCamera] from the point where [getUserMedia] has settled.  A
    granted stream is live when it is handed over. *)
Definition switchCamera_resume (r : Render) (answer : UserMedia) (w : World) : World :=
  let newMode := opposite (cameraMode (view r)) in
  match answer with
  | Granted stream =>
      let w0 := set_live_streams (stream :: live_streams w) w in
      let w1 := bind_video stream w0 in
      let w2 := setMediaStream (Some stream) w1 in
      say r (switched_message newMode) w2
  | Refused _ =>
      let w1 := say r switch_failed_message w in
      setCameraMode (cameraMode (view r)) w1
  end.

Definition switchCamera (r : Render) (answer : UserMedia) (w : World) : World :=
  match switchCamera_begin r w with
  | (w1, true) => switchCamera_resume r answer w1
  | (w1, false) => w1
  end.

(** A facing has a fully active capture session when the camera is marked
    active and the session's stream shows that facing and is live. *)
Definition capturing (f : CameraMode) (w : World) : bool :=
  isCameraActive (st w) &&
  match mediaStream (st w) with
  | Some s => CameraMode_eqb (stream_facing s) f && existsb (MediaStream_eqb s) (live_streams w)
  | None => false
  end.

(* ------------------------------------------------------------------ *)
(** ** Events delivered by the browser *)

Definition run_timer (a : TimerAction) (w : World) : World :=
  match a with
  | TAttemptSpeak r text cb => fst (attemptSpeak r text cb w)
  | TWatchdog r => watchdog r w
  | TRestartRecognition => restartRecognition w
  end.

(** A pending timeout expires. *)
Definition fire_timer (id : nat) (w : World) : World :=
  match find (fun t => (timer_id t =? id)%nat) (timers w) with
  | Some t => run_timer (timer_action t) (clearTimeout id w)
  | None => w
  end.

(** The engine starts speaking an utterance. *)
Definition deliver_start (u : Utterance) (w : World) : World :=
  utterance_onstart u w.

(** The recogniser reports an error, then ends; both handlers belong to
    the same recognition object, hence to the same render. *)
Definition deliver_error_then_end (r : Render) (code : string) (w : World) : World :=
  recognition_onend r (set_rec_started false (recognition_onerror r code w)).

Definition timer_callback (t : Timer) : option Callback :=
  match timer_action t with
  | TAttemptSpeak _ _ cb => cb
  | _ => None
  end.

(** The completion callbacks that something pending still holds. *)
Definition pending_callbacks (w : World) : list Callback :=
  flat_map (fun t => match timer_callback t with Some c => [c] | None => [] end) (timers w)
  ++ flat_map (fun u => match u_onEnd u with Some c => [c] | None => [] end)
       (synth_queue w ++ synth_cancelled w).

Definition restart_timers (w : World) : list Timer :=
  filter (fun t => match timer_action t with TRestartRecognition => true | _ => false end)
    (timers w).

(** How often a trace holds an effect that satisfies a test. *)
Definition count (p : Effect -> bool) (w : World) : nat :=
  List.length (filter p (trace w)).

Definition is_callback (id : nat) (e : Effect) : bool :=
  match e with EvCallback i => (i =? id)%nat | _ => false end.
Definition is_recognition_start (e : Effect) : bool :=
  match e with EvRecognitionStart => true | _ => false end.
Definition is_fetch (e : Effect) : bool :=
  match e with EvFetch _ => true | _ => false end.
Definition is_device (e : Effect) : bool :=
  match e with EvTrackStop _ | EvGetUserMedia _ => true | _ => false end.
Definition is_getUserMedia (e : Effect) : bool :=
  match e with EvGetUserMedia _ => true | _ => false end.

(** The engine finishes the utterance it is speaking, the first of its
    queue. *)
Definition deliver_end (w : World) : World :=
  match synth_queue w with
  | u :: rest => utterance_onend run_callback u (set_synth rest (synth_cancelled w) w)
  | [] => w
  end.

(** The engine reports the error event it owes a cancelled utterance. *)
Definition deliver_cancelled (w : World) : World :=
  match synth_cancelled w with
  | u :: rest => utterance_onerror run_callback u "interrupted" (set_synth (synth_queue w) rest w)
  | [] => w
  end.

(** A text was voiced between two worlds when it was submitted to the
    speech engine in between, or when its submission is newly scheduled. *)
Definition voiced (text : string) (cb : option Callback) (w w' : World) : Prop :=
  (exists pre v, trace w' = (pre ++ trace w)%list /\
                 In (EvSynthSpeak (mkUtterance (Str.trim text) v cb)) pre)
  \/ (exists id r, In (mkTimer id 100 (TAttemptSpeak r text cb)) (timers w') /\
                   next_timer w <= id).

(** Nothing was submitted to the speech engine, cancelled or scheduled
    between two worlds. *)
Definition silent (w w' : World) : Prop :=
  trace w' = trace w /\ timers w' = timers w /\ synth_queue w' = synth_queue w
  /\ synth_cancelled w' = synth_cancelled w /\ utteranceRef w' = utteranceRef w
  /\ isSpeaking (st w') = isSpeaking (st w).

(* ------------------------------------------------------------------ *)
(** ** Starting and stopping the camera *)

Definition with_isCameraActive (v : bool) (s : AppState) : AppState :=
  mkState (isListening s) v (currentPage s) (assistantResponse s) (cameraMode s)
    (mediaStream s) (isProcessing s) (capturedImage s) (isSpeaking s) (speechEnabled s)
    (currentQuestion s) (error s) (isVoicesLoaded s) (microphonePermission s).

Definition with_currentPage (v : Page) (s : AppState) : AppState :=
  mkState (isListening s) (isCameraActive s) v (assistantResponse s) (cameraMode s)
    (mediaStream s) (isProcessing s) (capturedImage s) (isSpeaking s) (speechEnabled s)
    (currentQuestion s) (error s) (isVoicesLoaded s) (microphonePermission s).

Definition setIsCameraActive v := upd_st (with_isCameraActive v).
Definition setCurrentPage v := upd_st (with_currentPage v).

Definition camera_stopped_message : string := "Camera stopped.".
Definition camera_started_message : string :=
  "Camera started. You can now ask questions about what I see.".

(** The message [toggleCamera] builds from the [name] of what it caught. *)
Definition camera_error_message (name : string) : string :=
  "Unable to access camera. " ++
  (if String.eqb name "NotAllowedError" then "Please allow camera permissions and try again."
   else if String.eqb name "NotFoundError" then "No camera found on this device."
   else if String.eqb name "NotReadableError" then "Camera is being used by another application."
   else "Please check your camera settings and try again.").

(** The [catch] block of [toggleCamera]. *)
Definition toggleCamera_catch (r : Render) (name : string) (w : World) : World :=
  let errorMessage := camera_error_message name in
  let w1 := setError (Some errorMessage) w in
  say r errorMessage w1.

(** [videoRef.current.srcObject = null]. *)
Definition unbind_video (w : World) : World :=
  match videoRef w with
  | Some v => set_videoRef (Some (mkVideo (readyState v) (videoWidth v) (videoHeight v)
                                      (frame v) None)) w
  | None => w
  end.

Definition is_camera_page (p : Page) : bool :=
  match p with camera => true | _ => false end.

(** [toggleCamera] up to the [await] of [getUserMedia]; the flag tells
    whether it is suspended there.  [supported] is whether
    [navigator.mediaDevices.getUserMedia] exists; the [Error] thrown when
    it does not has the name ["Error"]. *)
Definition toggleCamera_begin (r : Render) (supported : bool) (w : World) : World * bool :=
  if isCameraActive (view r) then
    let w1 := match mediaStream (view r) with
              | Some s => stop_tracks s w
              | None => w
              end in
    let w2 := setIsCameraActive false w1 in
    let w3 := unbind_video w2 in
    let w4 := setMediaStream None w3 in
    let w5 := setCapturedImage None w4 in
    let w6 := setError None w5 in
    (say r camera_stopped_message w6, false)
  else if negb supported then (toggleCamera_catch r "Error" w, false)
  else (emit (EvGetUserMedia (cameraMode (view r))) w, true).

(** [toggleCamera] from the point where [getUserMedia] has settled. *)
Definition toggleCamera_resume (r : Render) (answer : UserMedia) (w : World) : World :=
  match answer with
  | Granted stream =>
      let w0 := set_live_streams (stream :: live_streams w) w in
      let w1 := bind_video stream w0 in
      let w2 := setMediaStream (Some stream) w1 in
      let w3 := setIsCameraActive true w2 in
      let w4 := setError None w3 in
      let w5 := say r camera_started_message w4 in
      if negb (is_camera_page (currentPage (view r))) then setCurrentPage camera w5 else w5
  | Refused name => toggleCamera_catch r name w
  end.

Definition toggleCamera (r : Render) (supported : bool) (answer : UserMedia) (w : World)
  : World :=
  match toggleCamera_begin r supported w with
  | (w1, true) => toggleCamera_resume r answer w1
  | (w1, false) => w1
  end.

(* ------------------------------------------------------------------ *)
(** ** Leaving the page *)

(** The state the component mounts with, one initial value per
    [useState]. *)
Definition initial_state : AppState :=
  mkState false false home "" environment None false None false true "" None false None.

(** The cleanup of the effect with no dependencies.  It is the closure of
    the render in which the effect ran. *)
Definition unmount (r : Render) (w : World) : World :=
  let w1 := stopSpeaking r w in
  let w2 := clear_speech_timeout w1 in
  let w3 := match mediaStream (view r) with
            | Some s => stop_tracks s w2
            | None => w2
            end in
  match recognitionRef w3 with
  | Some _ => recognition_stop w3
  | None => w3
  end.

(* ------------------------------------------------------------------ *)
(** ** The loading screen *)

Module LoadingScreen.

Definition texts : list string :=
  ["Initializing AKSHI..."; "Loading AI Vision Models..."; "Preparing Camera Systems...";
   "Calibrating Audio Processing..."; "Activating Neural Networks...";
   "Ready to See the World!"].

(** The two state variables of the screen, whether its interval is still
    set, and how often [onComplete] has been scheduled. *)
Record Loading := mkLoading {
  progress : nat;
  loadingText : string;
  ticking : bool;
  completions : nat
}.

Definition start : Loading := mkLoading 0 "Initializing AKSHI..." true 0.

(** One run of the interval's callback. *)
Definition tick (s : Loading) : Loading :=
  if negb (ticking s) then s
  else
    let newProgress := progress s + 2 in
    let textIndex := newProgress / 17 in
    let text := match nth_error texts textIndex with
                | Some t => t
                | None => loadingText s
                end in
    if (100 <=? newProgress)%nat then mkLoading 100 text false (S (completions s))
    else mkLoading newProgress text true (completions s).

Fixpoint ticks (n : nat) (s : Loading) : Loading :=
  match n with
  | O => s
  | S k => tick (ticks k s)
  end.

End LoadingScreen.

(* ------------------------------------------------------------------ *)
(** ** Speech that reaches the engine *)

(** [attemptSpeak] defers: the engine lists no voice and the render has
    not seen the voices load. *)
Definition attempt_deferred (r : Render) (w : World) : bool :=
  (List.length (voices w) =? 0)%nat && negb (isVoicesLoaded (view r)).

(** Speech output is ready for a text: the guard of [speak] lets it
    through, the attempt is not deferred, and the engine accepts the
    utterance. *)
Definition speech_ready (r : Render) (text : string) (w : World) : bool :=
  negb (speech_unavailable r text) && negb (attempt_deferred r w) && negb (synth_fails w).

(** Between two worlds a text was handed to the engine: the engine's
    queue holds exactly the new utterance, with the trimmed text and the
    callback, it is the current utterance, the call that submitted it is
    the last one made (after the cancellation of what was queued before),
    and what was queued before is cancelled. *)
Definition handed_over (text : string) (cb : option Callback) (w w' : World) : Prop :=
  let u := mkUtterance (Str.trim text) (preferredVoice (voices w)) cb in
  synth_queue w' = [u]
  /\ utteranceRef w' = Some u
  /\ trace w' = EvSynthSpeak u :: (if synth_busy w then EvSynthCancel :: trace w else trace w)
  /\ synth_cancelled w' = (synth_queue w ++ synth_cancelled w)%list.

(** The engine refused a text between two worlds: the submission was
    made and threw, and nothing is queued or current. *)
Definition refused_by_engine (text : string) (cb : option Callback) (w w' : World) : Prop :=
  let u := mkUtterance (Str.trim text) (preferredVoice (voices w)) cb in
  synth_queue w' = []
  /\ utteranceRef w' = None
  /\ trace w' = EvSynthSpeak u :: (if synth_busy w then EvSynthCancel :: trace w else trace w)
  /\ st w' = with_isSpeaking false (st w)
  /\ recognitionRef w' = recognitionRef w
  /\ rec_started w' = rec_started w
  /\ videoRef w' = videoRef w
  /\ canvasRef w' = canvasRef w.

(* ------------------------------------------------------------------ *)
(** ** Sample inputs *)

Definition idle_state : AppState :=
  mkState false false camera "" environment None false None false true "" None true
    (Some granted).

(** The camera runs on the back-facing stream 1. *)
Definition back_stream : MediaStream := mkStream 1 environment.

Definition active_state : AppState :=
  mkState false true camera "" environment (Some back_stream) false None false true ""
    None true (Some granted).

Definition render_of (s : AppState) : Render := mkRender true true (Some "sk-test") s.

Definition a_voice : Voice := mkVoice "Google US English" "en-US" false.

Definition a_video : Video := mkVideo 4 1280 720 "data:image/jpeg;base64,AAAA" (Some back_stream).

Definition world_of (s : AppState) (vs : list Voice) : World :=
  mkWorld s (Some (render_of s)) None None (Some a_video) (Some (mkCanvas true 0 0))
    [] 1 vs [] [] false false
    (match mediaStream s with Some m => [m] | None => [] end) [].

(** The camera runs, speech output is switched off and a turn is in
    progress. *)
Definition muted_state : AppState :=
  mkState false true camera "" environment (Some back_stream) true None false false ""
    None true (Some granted).

(** The camera is off and the page announcement is being spoken. *)
Definition announcing_state : AppState :=
  mkState false false camera "" environment None false None true true "" None true
    (Some granted).

Definition announcement : Utterance :=
  mkUtterance "Camera page. Click Start Camera to begin." (Some a_voice) None.

Definition announcing_world : World :=
  mkWorld announcing_state (Some (render_of idle_state)) (Some announcement) (Some 1)
    (Some a_video) (Some (mkCanvas true 0 0))
    [mkTimer 1 5000 (TWatchdog (render_of idle_state))] 2 [a_voice] [announcement] []
    false false [] [EvSynthSpeak announcement].

(** Speech output is switched off; the camera runs. *)
Definition quiet_state : AppState :=
  mkState false true camera "" environment (Some back_stream) false None false false ""
    None true (Some granted).

(** The camera runs and the render has not yet seen the voices load. *)
Definition early_state : AppState :=
  mkState false true camera "" environment (Some back_stream) false None false true ""
    None false (Some granted).

(** The error codes the recognition handler tells apart. *)
Definition known_codes : list string :=
  ["not-allowed"; "service-not-allowed"; "no-speech"; "audio-capture"; "network"; "aborted"].

(* ================================================================== *)
(** * Properties *)

(** ** Lists of pending work *)

Lemma flat_map_filter_incl {A B} (f : A -> list B) (p : A -> bool) (l : list A) :
  incl (flat_map f (filter p l)) (flat_map f l).
Proof.
  induction l as [|a l IH]; simpl.
  - apply incl_refl.
  - destruct (p a); simpl.
    + apply incl_app; [apply incl_appl, incl_refl | apply incl_appr, IH].
    + apply incl_appr, IH.
Qed.

(** ** What [stopSpeaking] and [say] leave alone *)

Ltac break_if :=
  match goal with
  | |- context [if ?b then _ else _] => destruct b eqn:?
  | |- context [match ?o with Some _ => _ | None => _ end] => destruct o eqn:?
  | |- context [match ?l with [] => _ | _ :: _ => _ end] => destruct l eqn:?
  end.

Lemma available_synthesis r text :
  speech_unavailable r text = false -> hasSpeechSynthesis r = true.
Proof.
  unfold speech_unavailable. intros H.
  repeat (apply orb_false_iff in H; destruct H as [H ?]).
  now destruct (hasSpeechSynthesis r).
Qed.

Lemma stopSpeaking_st r w :
  st (stopSpeaking r w) = st w \/ st (stopSpeaking r w) = with_isSpeaking false (st w).
Proof.
  unfold stopSpeaking, clear_speech_timeout, synth_busy, synth_cancel.
  repeat break_if; simpl; auto.
Qed.

Lemma stopSpeaking_pending r w :
  incl (pending_callbacks (stopSpeaking r w)) (pending_callbacks w).
Proof.
  unfold stopSpeaking, clear_speech_timeout, synth_busy, synth_cancel, pending_callbacks.
  repeat break_if; simpl; rewrite ?app_nil_r;
    try apply incl_refl;
    apply incl_app; try (apply incl_appl, flat_map_filter_incl);
    try (apply incl_appl, incl_refl); apply incl_appr; try apply incl_refl;
    match goal with H : synth_queue w = _ |- _ => rewrite <- H; apply incl_refl end.
Qed.

(** Unfolds a [speak] call down to the world it builds, one goal per path. *)
Ltac speak_paths E :=
  unfold say, speak, speak_with, invoke;
  match goal with
  | |- context [speech_unavailable ?r ?t] =>
      destruct (speech_unavailable r t) eqn:E;
      [ | let Hs := fresh "Hs" in
          pose proof (available_synthesis _ _ E) as Hs;
          unfold stopSpeaking, clear_speech_timeout, attemptSpeak, setTimeout, synth_busy,
            synth_cancel, clearTimeout;
          rewrite Hs; simpl; repeat break_if; simpl ]
  end.

(** The world in which [speak] makes its attempt, after it has stopped
    the previous utterance. *)
Lemma prepared r w :
  hasSpeechSynthesis r = true ->
  let w2 := clear_speech_timeout (stopSpeaking r w) in
  synth_fails w2 = synth_fails w /\ next_timer w2 = next_timer w
  /\ voices w2 = voices w /\ synth_queue w2 = []
  /\ (trace w2 = trace w \/ trace w2 = EvSynthCancel :: trace w).
Proof.
  intros Hs. unfold stopSpeaking, clear_speech_timeout, synth_busy, synth_cancel, clearTimeout.
  rewrite Hs. simpl. destruct (synth_queue w) eqn:Q; simpl;
    repeat break_if; simpl; rewrite ?Q; repeat split; auto.
Qed.

Lemma say_unavailable r text w :
  speech_unavailable r text = true -> say r text w = w.
Proof. intros H. unfold say, speak_with. now rewrite H. Qed.

Lemma say_st r text w :
  st (say r text w) =
  if speech_unavailable r text then st w else with_isSpeaking false (st w).
Proof. speak_paths E; reflexivity. Qed.

Lemma say_frame r text w :
  recognitionRef (say r text w) = recognitionRef w
  /\ videoRef (say r text w) = videoRef w
  /\ canvasRef (say r text w) = canvasRef w
  /\ live_streams (say r text w) = live_streams w
  /\ rec_started (say r text w) = rec_started w
  /\ voices (say r text w) = voices w.
Proof. speak_paths E; repeat split; reflexivity. Qed.

Lemma say_silent_when_unavailable r text w :
  speech_unavailable r text = true -> silent w (say r text w).
Proof. intros H. rewrite say_unavailable by exact H. repeat split. Qed.

Lemma say_count (p : Effect -> bool) r text w :
  p EvSynthCancel = false -> (forall u, p (EvSynthSpeak u) = false) ->
  count p (say r text w) = count p w.
Proof.
  intros Hc Hu. speak_paths E; unfold count; simpl; rewrite ?Hu, ?Hc; reflexivity.
Qed.

Lemma say_voiced r text w :
  speech_unavailable r text = false -> voiced text None w (say r text w).
Proof.
  intros H. unfold voiced. speak_paths E; try discriminate;
    first [ right; eexists _, _; split; [left; reflexivity | apply le_n]
          | left; eexists [_], _; split; [reflexivity | left; reflexivity]
          | left; eexists [_; _], _; split; [reflexivity | left; reflexivity] ].
Qed.

Ltac incl_lists :=
  unfold incl; intros ? ?;
  repeat (rewrite ?flat_map_app, ?in_app_iff in *; simpl in * );
  intuition auto.

Lemma clear_pending w :
  incl (pending_callbacks (clear_speech_timeout w)) (pending_callbacks w).
Proof.
  unfold clear_speech_timeout, clearTimeout, pending_callbacks.
  destruct (speechTimeoutRef w); simpl; [ | apply incl_refl].
  apply incl_app; [apply incl_appl, flat_map_filter_incl | apply incl_appr, incl_refl].
Qed.

Lemma attempt_pending r text w :
  incl (pending_callbacks (fst (attemptSpeak r text None w))) (pending_callbacks w).
Proof.
  unfold attemptSpeak, setTimeout, pending_callbacks.
  repeat break_if; simpl; incl_lists.
Qed.

Lemma say_pending r text w :
  incl (pending_callbacks (say r text w)) (pending_callbacks w).
Proof.
  unfold say, speak_with, invoke.
  destruct (speech_unavailable r text); [apply incl_refl | ].
  set (w2 := clear_speech_timeout (stopSpeaking r w)).
  assert (H2 : incl (pending_callbacks w2) (pending_callbacks w))
    by (eapply incl_tran; [apply clear_pending | apply stopSpeaking_pending]).
  pose proof (attempt_pending r text w2) as H3.
  destruct (attemptSpeak r text None w2) as [w3 [|]]; simpl in *;
    eapply incl_tran; eauto.
Qed.

Lemma clear_restart_timers w :
  incl (restart_timers (clear_speech_timeout w)) (restart_timers w).
Proof.
  unfold clear_speech_timeout, clearTimeout, restart_timers.
  destruct (speechTimeoutRef w); simpl; [ | apply incl_refl].
  intros x Hx. apply filter_In in Hx as [Hx Hp].
  apply filter_In in Hx as [Hx _]. apply filter_In; auto.
Qed.

Lemma say_restart_timers r text w :
  incl (restart_timers (say r text w)) (restart_timers w).
Proof.
  unfold say, speak_with, invoke.
  destruct (speech_unavailable r text) eqn:E; [apply incl_refl | ].
  pose proof (available_synthesis _ _ E) as Hs.
  assert (H1 : incl (restart_timers (stopSpeaking r w)) (restart_timers w)).
  { unfold stopSpeaking. rewrite Hs. simpl.
    change (restart_timers (set_utteranceRef None (setIsSpeaking false ?x)))
      with (restart_timers x).
    eapply incl_tran; [apply clear_restart_timers | ].
    unfold synth_busy, synth_cancel. break_if; apply incl_refl. }
  set (w2 := clear_speech_timeout (stopSpeaking r w)).
  assert (H2 : incl (restart_timers w2) (restart_timers w))
    by (eapply incl_tran; [apply clear_restart_timers | exact H1]).
  assert (H3 : restart_timers (fst (attemptSpeak r text None w2)) = restart_timers w2).
  { unfold attemptSpeak, setTimeout, restart_timers. repeat break_if; reflexivity. }
  destruct (attemptSpeak r text None w2) as [w3 [|]]; simpl in *;
    unfold restart_timers in *; simpl; rewrite H3; exact H2.
Qed.

(** ** Speech that reaches the engine *)

Lemma prepared_exact r w :
  hasSpeechSynthesis r = true ->
  let w2 := clear_speech_timeout (stopSpeaking r w) in
  trace w2 = (if synth_busy w then EvSynthCancel :: trace w else trace w)
  /\ synth_cancelled w2 = (synth_queue w ++ synth_cancelled w)%list
  /\ videoRef w2 = videoRef w /\ canvasRef w2 = canvasRef w
  /\ st w2 = with_isSpeaking false (st w) /\ recognitionRef w2 = recognitionRef w
  /\ rec_started w2 = rec_started w.
Proof.
  intros Hs. unfold stopSpeaking, clear_speech_timeout, synth_busy, synth_cancel, clearTimeout.
  rewrite Hs. simpl. destruct (synth_queue w) eqn:Q; simpl;
    repeat break_if; simpl; repeat split; auto.
Qed.

Lemma ready_parts r text w :
  speech_ready r text w = true ->
  speech_unavailable r text = false /\ attempt_deferred r w = false /\ synth_fails w = false.
Proof.
  unfold speech_ready. intros H.
  apply andb_true_iff in H as [H H3]. apply andb_true_iff in H as [H1 H2].
  repeat split; now apply negb_true_iff.
Qed.

Section SpeakWith.

Variable run : Callback -> World -> World.

Lemma speak_with_when_ready r text cb w :
  speech_ready r text w = true ->
  let w' := speak_with run r text cb w in
  handed_over text cb w w'
  /\ st w' = with_isSpeaking false (st w)
  /\ recognitionRef w' = recognitionRef w /\ rec_started w' = rec_started w
  /\ videoRef w' = videoRef w /\ canvasRef w' = canvasRef w.
Proof.
  intros H w'. subst w'. destruct (ready_parts _ _ _ H) as (Hu & Hd & Hf).
  unfold speak_with. rewrite Hu.
  destruct (prepared r w (available_synthesis _ _ Hu)) as (P1 & _ & P3 & P4 & _).
  destruct (prepared_exact r w (available_synthesis _ _ Hu))
    as (E1 & E2 & E3 & E4 & E5 & E6 & E7).
  set (w2 := clear_speech_timeout (stopSpeaking r w)) in *. clearbody w2.
  unfold attempt_deferred in Hd.
  unfold attemptSpeak, setTimeout, handed_over. rewrite P1, Hf, P3, Hd. simpl.
  rewrite P4, E1, E2. repeat split; auto.
Qed.

Lemma speak_with_engine_throws r text cb w :
  speech_unavailable r text = false -> attempt_deferred r w = false ->
  synth_fails w = true ->
  exists wf, speak_with run r text cb w = invoke run cb wf
             /\ refused_by_engine text cb w wf.
Proof.
  intros Hu Hd Hf. unfold speak_with. rewrite Hu.
  destruct (prepared r w (available_synthesis _ _ Hu)) as (P1 & _ & P3 & P4 & _).
  destruct (prepared_exact r w (available_synthesis _ _ Hu))
    as (E1 & E2 & E3 & E4 & E5 & E6 & E7).
  set (w2 := clear_speech_timeout (stopSpeaking r w)) in *. clearbody w2.
  unfold attempt_deferred in Hd.
  unfold attemptSpeak, setTimeout. rewrite P1, Hf, P3, Hd. simpl.
  eexists. split; [reflexivity | ].
  unfold refused_by_engine. simpl. rewrite P4, E1, E5. repeat split; auto.
Qed.

End SpeakWith.

Lemma say_when_ready r text w :
  speech_ready r text w = true -> handed_over text None w (say r text w).
Proof. intros H. exact (proj1 (speak_with_when_ready _ r text None w H)). Qed.

(** ** Recording a message and saying it

    Several handlers run [setError(message); speak(message)].  The pair
    records the message, touches the speech channel only, and registers
    no continuation. *)

Lemma announce_state r msg w :
  let w' := say r msg (setError (Some msg) w) in
  error (st w') = Some msg
  /\ isListening (st w') = isListening (st w)
  /\ isProcessing (st w') = isProcessing (st w)
  /\ isCameraActive (st w') = isCameraActive (st w)
  /\ cameraMode (st w') = cameraMode (st w)
  /\ mediaStream (st w') = mediaStream (st w)
  /\ capturedImage (st w') = capturedImage (st w)
  /\ microphonePermission (st w') = microphonePermission (st w).
Proof.
  simpl. rewrite say_st. destruct (speech_unavailable r msg); repeat split.
Qed.

Lemma announce_quiet r msg w :
  let w' := say r msg (setError (Some msg) w) in
  count is_recognition_start w' = count is_recognition_start w
  /\ count is_fetch w' = count is_fetch w
  /\ count is_device w' = count is_device w
  /\ incl (pending_callbacks w') (pending_callbacks w)
  /\ incl (restart_timers w') (restart_timers w)
  /\ rec_started w' = rec_started w.
Proof.
  simpl. repeat split.
  - now rewrite say_count.
  - now rewrite say_count.
  - now rewrite say_count.
  - apply (say_pending r msg (setError (Some msg) w)).
  - apply (say_restart_timers r msg (setError (Some msg) w)).
  - apply (say_frame r msg (setError (Some msg) w)).
Qed.

Lemma announce_voiced r msg w :
  speech_unavailable r msg = false ->
  voiced msg None w (say r msg (setError (Some msg) w)).
Proof. intros H. exact (say_voiced r msg (setError (Some msg) w) H). Qed.

(* ------------------------------------------------------------------ *)
(** ** Starting a turn without its preconditions *)

(** C5.  A [startListening] call made while speech recognition is
    unsupported, or microphone permission is not granted, or the camera is
    inactive ends at once: the message of the first precondition that
    fails is recorded as the error and said (when speech output is
    available), the three messages differ, the listening and processing
    flags stay as they were, recognition is not started, and nothing that
    could start it later is registered. *)
Theorem startListening_refused (r : Render) (w : World) :
  hasSpeechRecognition r = false
  \/ is_granted (microphonePermission (view r)) = false
  \/ isCameraActive (view r) = false ->
  let w' := startListening r w in
  (exists reason,
      error (st w') = Some reason
      /\ (speech_unavailable r reason = false -> voiced reason None w w')
      /\ (hasSpeechRecognition r = false -> reason = unsupported_message)
      /\ (hasSpeechRecognition r = true ->
          is_granted (microphonePermission (view r)) = false ->
          reason = microphone_required_message)
      /\ (hasSpeechRecognition r = true ->
          is_granted (microphonePermission (view r)) = true ->
          reason = camera_required_message))
  /\ unsupported_message <> microphone_required_message
  /\ unsupported_message <> camera_required_message
  /\ microphone_required_message <> camera_required_message
  /\ count is_recognition_start w' = count is_recognition_start w
  /\ rec_started w' = rec_started w
  /\ incl (pending_callbacks w') (pending_callbacks w)
  /\ incl (restart_timers w') (restart_timers w)
  /\ isListening (st w') = isListening (st w)
  /\ isProcessing (st w') = isProcessing (st w).
Proof.
  intros H w'. subst w'. unfold startListening.
  assert (D : unsupported_message <> microphone_required_message
              /\ unsupported_message <> camera_required_message
              /\ microphone_required_message <> camera_required_message)
    by (repeat split; discriminate).
  destruct D as (D1 & D2 & D3).
  destruct (hasSpeechRecognition r) eqn:Hr; simpl;
    [ destruct (is_granted (microphonePermission (view r))) eqn:Hg; simpl;
      [ destruct (isCameraActive (view r)) eqn:Hc; simpl;
        [ exfalso; destruct H as [H | [H | H]]; discriminate | ] | ] | ].
  all: match goal with
       | |- context [say ?r0 ?m (setError (Some ?m) ?w0)] =>
           pose proof (announce_state r0 m w0) as (S1 & S2 & S3 & _);
           pose proof (announce_quiet r0 m w0) as (Q1 & _ & _ & Q4 & Q5 & Q6);
           pose proof (announce_voiced r0 m w0) as V;
           split; [exists m; repeat split; auto; intros; congruence | ];
           repeat split; auto
       end.
Qed.

Lemma startListening_refused_witness :
  let r := render_of idle_state in
  let w := world_of idle_state [a_voice] in
  isCameraActive (view r) = false
  /\ error (st (startListening r w)) = Some camera_required_message
  /\ count is_recognition_start (startListening r w) = 0.
Proof.
  intros r w. split; [reflexivity | ].
  destruct (startListening_refused r w (or_intror (or_intror eq_refl)))
    as ((reason & He & _ & _ & _ & Hc) & _ & _ & _ & Hn & _).
  split.
  - rewrite He. f_equal. apply Hc; reflexivity.
  - exact Hn.
Defined.

(* ------------------------------------------------------------------ *)
(** ** Recognition errors *)

Lemma unknown_code_eqb code :
  ~ In code known_codes ->
  String.eqb code "not-allowed" = false /\ String.eqb code "service-not-allowed" = false
  /\ String.eqb code "no-speech" = false /\ String.eqb code "audio-capture" = false
  /\ String.eqb code "network" = false /\ String.eqb code "aborted" = false.
Proof.
  intros H. repeat split; apply String.eqb_neq; intros ->; apply H; simpl; tauto.
Qed.

(** With speech output switched off, a [network] error is recorded as the
    error message and nothing at all is said: no utterance is submitted,
    none is scheduled, the speech channel is as it was. *)
Lemma recognition_onerror_unvoiced_when_muted :
  let r := render_of quiet_state in
  let w := world_of quiet_state [a_voice] in
  let w' := recognition_onerror r "network" w in
  speechEnabled (view r) = false
  /\ error (st w') = Some network_message
  /\ trace w' = [] /\ timers w' = [] /\ synth_queue w' = [] /\ utteranceRef w' = None.
Proof. repeat split. Qed.

(** C7.  The error handler of the recogniser, for every error code.
    [not-allowed] and [service-not-allowed] record a message, set the
    microphone permission to denied and say the message; [audio-capture],
    [network] and every other code record a message, leave the permission
    and say the message; [no-speech] records a message, leaves the
    permission and says nothing; [aborted] records nothing, leaves the
    permission and says nothing.  Saying a message hands it to the speech
    engine when speech output is ready in the handler's render (enabled,
    supported, microphone granted, a voice listed or loaded, the engine
    accepting), and is silent when speech output is unavailable. *)
Theorem recognition_onerror_policy (r : Render) (code : string) (w : World) :
  let w' := recognition_onerror r code w in
  let said m := (speech_ready r m w = true -> handed_over m None w w')
                /\ (speech_unavailable r m = true -> silent w w') in
  let unrevised := microphonePermission (st w') = microphonePermission (st w) in
  (code = "not-allowed" \/ code = "service-not-allowed" ->
     error (st w') = Some access_denied_message /\ said access_denied_message
     /\ microphonePermission (st w') = Some denied)
  /\ (code = "no-speech" ->
     error (st w') = Some no_speech_message /\ silent w w' /\ unrevised)
  /\ (code = "audio-capture" ->
     error (st w') = Some no_microphone_message /\ said no_microphone_message /\ unrevised)
  /\ (code = "network" ->
     error (st w') = Some network_message /\ said network_message /\ unrevised)
  /\ (code = "aborted" ->
     error (st w') = error (st w) /\ silent w w' /\ unrevised)
  /\ (~ In code known_codes ->
     error (st w') = Some recognition_failed_message /\ said recognition_failed_message
     /\ unrevised).
Proof.
  intros w' said unrevised. subst w' said unrevised.
  assert (G : forall m x,
             trace x = trace w -> timers x = timers w -> synth_queue x = synth_queue w ->
             synth_cancelled x = synth_cancelled w -> utteranceRef x = utteranceRef w ->
             isSpeaking (st x) = isSpeaking (st w) -> voices x = voices w ->
             synth_fails x = synth_fails w ->
             (speech_ready r m w = true ->
              handed_over m None w (setIsProcessing false (say r m x)))
             /\ (speech_unavailable r m = true ->
                 silent w (setIsProcessing false (say r m x)))).
  { intros m x T Ti Q C U I V F. split.
    - intros Hr.
      assert (Hx : speech_ready r m x = true)
        by (unfold speech_ready, attempt_deferred in *; now rewrite V, F).
      pose proof (say_when_ready r m x Hx) as (H1 & H2 & H3 & H4).
      unfold handed_over, synth_busy in *. rewrite V, Q, T, C in *.
      repeat split; assumption.
    - intros Hu. pose proof (say_silent_when_unavailable r m x Hu) as (H1 & H2 & H3 & H4 & H5 & H6).
      unfold silent. simpl. rewrite H1, H2, H3, H4, H5, H6. repeat split; assumption. }
  assert (K : forall m x,
             trace x = trace w -> timers x = timers w -> synth_queue x = synth_queue w ->
             synth_cancelled x = synth_cancelled w -> utteranceRef x = utteranceRef w ->
             isSpeaking (st x) = isSpeaking (st w) -> voices x = voices w ->
             synth_fails x = synth_fails w ->
             forall e p,
               error (st x) = e -> microphonePermission (st x) = p ->
               error (st (say r m x)) = e
               /\ ((speech_ready r m w = true ->
                    handed_over m None w (setIsProcessing false (say r m x)))
                   /\ (speech_unavailable r m = true ->
                       silent w (setIsProcessing false (say r m x))))
               /\ microphonePermission (st (say r m x)) = p).
  { intros m x T Ti Q C U I V F e p He Hp.
    refine (conj _ (conj (G m x T Ti Q C U I V F) _));
      rewrite say_st; destruct (speech_unavailable r m); assumption. }
  split; [ | split; [ | split; [ | split; [ | split ]]]].
  - intros [-> | ->]; unfold recognition_onerror; simpl; now apply K.
  - intros ->. unfold recognition_onerror. simpl. repeat split.
  - intros ->. unfold recognition_onerror. simpl. now apply K.
  - intros ->. unfold recognition_onerror. simpl. now apply K.
  - intros ->. unfold recognition_onerror. simpl. repeat split.
  - intros H. apply unknown_code_eqb in H. destruct H as (E1 & E2 & E3 & E4 & E5 & E6).
    unfold recognition_onerror. rewrite E1, E2, E3, E4, E5, E6. simpl. now apply K.
Qed.

Lemma recognition_onerror_policy_witness :
  let r := render_of active_state in
  let w := world_of active_state [a_voice] in
  error (st (recognition_onerror r "no-speech" w)) = Some no_speech_message
  /\ microphonePermission (st (recognition_onerror r "not-allowed" w)) = Some denied
  /\ error (st (recognition_onerror r "aborted" w)) = None
  /\ synth_queue (recognition_onerror r "network" w)
     = [mkUtterance network_message (Some a_voice) None].
Proof.
  intros r w.
  pose proof (recognition_onerror_policy r "no-speech" w) as (_ & H1 & _).
  pose proof (recognition_onerror_policy r "not-allowed" w) as (H2 & _).
  pose proof (recognition_onerror_policy r "aborted" w) as (_ & _ & _ & _ & H3 & _).
  pose proof (recognition_onerror_policy r "network" w) as (_ & _ & _ & H4 & _).
  split; [apply H1; reflexivity | ].
  split; [apply H2; left; reflexivity | ].
  split; [destruct (H3 eq_refl) as (H & _); exact H | ].
  destruct (H4 eq_refl) as (_ & (Hs & _) & _).
  exact (proj1 (Hs eq_refl)).
Defined.

(* ------------------------------------------------------------------ *)
(** ** Recognition results *)

Lemma speak_unavailable r text cb w :
  speech_unavailable r text = true ->
  speak r text cb w = match cb with Some c => run_callback c w | None => w end.
Proof. intros H. unfold speak, speak_with, invoke. now rewrite H. Qed.


Lemma processQuestion_begin_question r q w :
  currentQuestion (st (fst (processQuestion_begin r q w))) = currentQuestion (st w).
Proof.
  unfold processQuestion_begin, processQuestion_catch, captureImage.
  repeat (break_if; simpl); try reflexivity;
    repeat match goal with
      | |- context [match ?x with EmptyString => _ | String _ _ => _ end] =>
          destruct x; simpl
      | |- context [st (say ?a ?b ?c)] =>
          rewrite (say_st a b c); destruct (speech_unavailable a b); simpl
      end; reflexivity.
Qed.

Lemma long_truthy s : 2 < String.length s -> Str.truthy s = true.
Proof. destruct s; simpl; [lia | reflexivity]. Qed.

Lemma fetch_count_after_hand_over text cb w w' :
  handed_over text cb w w' -> count is_fetch w' = count is_fetch w.
Proof.
  intros (_ & _ & T & _). unfold count. rewrite T. now destruct (synth_busy w).
Qed.

(** The no-break space is trimmed like the other white space. *)
Example trim_no_break_space :
  Str.trim (String (ascii_of_nat 160) ("ok" ++ String (ascii_of_nat 160) "")) = "ok".
Proof. reflexivity. Qed.

(** With speech output switched off, a transcript of two characters is
    dropped without any re-prompt: nothing is said or scheduled, and no
    message is recorded either. *)
Lemma recognition_onresult_unprompted_when_muted :
  let r := render_of quiet_state in
  let w := world_of quiet_state [a_voice] in
  let w' := recognition_onresult r " ok " w in
  speechEnabled (view r) = false
  /\ Str.trim " ok " = "ok"
  /\ trace w' = [] /\ timers w' = [] /\ synth_queue w' = [] /\ utteranceRef w' = None
  /\ error (st w') = None /\ assistantResponse (st w') = "".
Proof. repeat split. Qed.

(** C6.  A recognition result whose trimmed transcript has at most two
    characters never reaches the vision query: no request is sent, no
    continuation is registered, question, response and error stay as
    they were and the processing flag is cleared; the "didn't catch
    that" message is handed to the speech engine when speech output is
    ready, and nothing is said when it is unavailable.  A longer
    transcript is recorded as the question.  When speech output is ready
    its acknowledgement "I heard: ..." is handed to the engine with the
    analysis of that transcript as completion callback: no request is
    sent yet, and the end of the utterance runs [processQuestion] on the
    transcript.  When speech output is unavailable, or the engine refuses
    the utterance, nothing is spoken and [processQuestion] runs on the
    transcript at once. *)
Theorem recognition_onresult_gate (r : Render) (heard : string) (w : World) :
  let transcript := Str.trim heard in
  let w' := recognition_onresult r heard w in
  let analysis := CbProcessQuestion r transcript in
  (String.length transcript <= 2 ->
     count is_fetch w' = count is_fetch w
     /\ incl (pending_callbacks w') (pending_callbacks w)
     /\ (speech_ready r not_caught_message w = true ->
         handed_over not_caught_message None w w')
     /\ (speech_unavailable r not_caught_message = true -> silent w w')
     /\ currentQuestion (st w') = currentQuestion (st w)
     /\ assistantResponse (st w') = assistantResponse (st w)
     /\ error (st w') = error (st w)
     /\ isProcessing (st w') = false)
  /\ (2 < String.length transcript ->
     currentQuestion (st w') = transcript
     /\ (speech_ready r (heard_message transcript) w = true ->
         handed_over (heard_message transcript) (Some analysis) w w'
         /\ count is_fetch w' = count is_fetch w
         /\ deliver_end w'
            = fst (processQuestion_begin r transcript
                     (set_utteranceRef None
                        (setIsSpeaking false (set_synth [] (synth_cancelled w') w')))))
     /\ (speech_unavailable r (heard_message transcript) = true ->
         w' = fst (processQuestion_begin r transcript (setCurrentQuestion transcript w)))
     /\ (speech_unavailable r (heard_message transcript) = false ->
         attempt_deferred r w = false -> synth_fails w = true ->
         exists wf,
           refused_by_engine (heard_message transcript) (Some analysis)
             (setCurrentQuestion transcript w) wf
           /\ w' = fst (processQuestion_begin r transcript wf))).
Proof.
  intros transcript w' analysis. subst w' analysis. unfold recognition_onresult.
  fold transcript. split; intros Hlen.
  - assert (Hb : (2 <? String.length transcript)%nat = false)
      by (apply Nat.ltb_ge; exact Hlen).
    rewrite Hb, andb_false_r.
    refine (conj (say_count is_fetch r not_caught_message w eq_refl (fun _ => eq_refl))
             (conj (say_pending r not_caught_message w)
               (conj (say_when_ready r not_caught_message w)
                 (conj _ _)))).
    + intros Hu. destruct (say_silent_when_unavailable r not_caught_message w Hu)
        as (H1 & H2 & H3 & H4 & H5 & H6).
      repeat split; assumption.
    + simpl. rewrite say_st.
      destruct (speech_unavailable r not_caught_message); repeat split.
  - assert (Hb : (2 <? String.length transcript)%nat = true)
      by (apply Nat.ltb_lt; exact Hlen).
    rewrite Hb, (long_truthy _ Hlen). simpl.
    set (x := setCurrentQuestion transcript w).
    set (ack := heard_message transcript).
    set (cb := Some (CbProcessQuestion r transcript)).
    refine (conj _ (conj _ (conj _ _))).
    + unfold speak, speak_with, invoke.
      destruct (speech_unavailable r ack) eqn:E.
      * unfold cb, run_callback. now rewrite processQuestion_begin_question.
      * pose proof (available_synthesis _ _ E) as Hs.
        unfold stopSpeaking, clear_speech_timeout, attemptSpeak, setTimeout, synth_busy,
          synth_cancel, clearTimeout.
        rewrite Hs. simpl. repeat break_if; simpl; try reflexivity;
          now rewrite processQuestion_begin_question.
    + intros Hr.
      assert (Hx : speech_ready r ack x = true) by exact Hr.
      destruct (speak_with_when_ready run_callback r ack cb x Hx) as (H & _).
      assert (H' : handed_over ack cb w (speak r ack cb x)) by exact H.
      refine (conj H' (conj (fetch_count_after_hand_over _ _ _ _ H') _)).
      destruct H' as (Q & _). unfold deliver_end. rewrite Q. reflexivity.
    + intros Hu. now rewrite speak_unavailable.
    + intros Hu Hd Hf.
      destruct (speak_with_engine_throws run_callback r ack cb x Hu Hd Hf)
        as (wf & Heq & Hwf).
      exists wf. split; [exact Hwf | exact Heq].
Qed.

Lemma recognition_onresult_gate_witness :
  let r := render_of active_state in
  let w := world_of active_state [a_voice] in
  let said := recognition_onresult r " ok " w in
  let asked := recognition_onresult r "What do you see?" w in
  (synth_queue said = [mkUtterance not_caught_message (Some a_voice) None]
   /\ count is_fetch said = 0 /\ isProcessing (st said) = false)
  /\ (synth_queue asked
      = [mkUtterance "I heard: What do you see?. Let me analyze what I can see."
           (Some a_voice) (Some (CbProcessQuestion r "What do you see?"))]
      /\ count is_fetch asked = 0
      /\ count is_fetch (deliver_end asked) = 1).
Proof.
  intros r w said asked.
  pose proof (recognition_onresult_gate r " ok " w) as (Hshort & _).
  pose proof (recognition_onresult_gate r "What do you see?" w) as (_ & Hlong).
  split.
  - destruct Hshort as (H1 & _ & H3 & _ & _ & _ & _ & H8); [simpl; lia | ].
    destruct (H3 eq_refl) as (Q & _).
    split; [exact Q | split; [exact H1 | exact H8]].
  - destruct Hlong as (_ & H2 & _); [simpl; lia | ].
    destruct (H2 eq_refl) as ((Q & _) & Hc & Hd).
    split; [exact Q | split; [exact Hc | ]].
    fold asked in Hd. rewrite Hd. reflexivity.
Defined.

(* ------------------------------------------------------------------ *)
(** ** The processing flag *)

(** C9.  When a [processQuestion] call completes, the processing flag is
    false: with the camera inactive, with no frame captured, without a
    credential, after an answer and after a failed analysis alike,
    whatever the other handlers did while the request was in flight. *)
Theorem processQuestion_clears_processing
    (r : Render) (question : string) (settled : Query.Outcome string)
    (between : World -> World) (w : World) :
  isProcessing (st (processQuestion r question settled between w)) = false.
Proof.
  unfold processQuestion, processQuestion_begin.
  destruct (negb (isCameraActive (view r))); [reflexivity | ].
  destruct (captureImage w) as [[[|c image]|] w0]; try reflexivity.
  destruct (Query.key_present (OPENAI_API_KEY r)); [ | reflexivity].
  destruct settled; reflexivity.
Qed.

(** Each way out is taken by some call. *)
Example processQuestion_paths :
  let r := render_of active_state in
  let w := world_of active_state [a_voice] in
  let off := render_of idle_state in
  let blind := set_videoRef None w in
  error (st (processQuestion off "q" (Query.Returned "a") id w)) = Some camera_inactive_message
  /\ error (st (processQuestion r "q" (Query.Returned "a") id blind)) = Some capture_failed_message
  /\ assistantResponse (st (processQuestion r "q" (Query.Returned "A red mug.") id w)) = "A red mug."
  /\ error (st (processQuestion r "q" (Query.Threw "boom") id w)) = Some "boom".
Proof. repeat split. Qed.

(* ------------------------------------------------------------------ *)
(** ** Switching the camera while it is off *)

(** The camera is off and the page announcement is being spoken when the
    camera is switched: the announcement is cancelled, the speaking flag
    and the current utterance change with the camera mode.  And with
    speech output switched off the switch says nothing. *)
Lemma switchCamera_inactive_interrupts_speech :
  let r := render_of announcing_state in
  let w := announcing_world in
  let w' := switchCamera r (Refused "unused") w in
  let off := render_of (mkState false false camera "" environment None false None false
                          false "" None true (Some granted)) in
  let w'' := switchCamera off (Refused "unused") (world_of (view off) [a_voice]) in
  (isCameraActive (view r) = false /\ view r = st w
   /\ isSpeaking (st w) = true /\ isSpeaking (st w') = false
   /\ utteranceRef w = Some announcement
   /\ utteranceRef w' = Some (mkUtterance (mode_set_message user) (Some a_voice) None)
   /\ synth_cancelled w = [] /\ synth_cancelled w' = [announcement]
   /\ timers w' <> timers w)
  /\ (isCameraActive (view off) = false /\ cameraMode (st w'') = user
      /\ trace w'' = [] /\ timers w'' = [] /\ synth_queue w'' = []).
Proof. repeat split; discriminate. Qed.

(** C10.  With the camera inactive, [switchCamera] sets the camera mode to
    the opposite of the one its render shows and announces it through
    [speak].  The media stream, the camera-active flag, the captured
    image and every other state variable except the speaking flag are
    unchanged, and no device is touched: no track is stopped, no stream is
    requested, the live streams and the video element stay as they were.
    When speech output is ready the announcement is handed to the speech
    engine, in place of whatever was being spoken, and the speaking flag
    is cleared; when speech output is unavailable nothing is said and
    the camera mode is the only change. *)
Theorem switchCamera_inactive (r : Render) (answer : UserMedia) (w : World) :
  isCameraActive (view r) = false ->
  let newMode := opposite (cameraMode (view r)) in
  let w' := switchCamera r answer w in
  st w' = (if speech_unavailable r (mode_set_message newMode)
           then with_cameraMode newMode (st w)
           else with_isSpeaking false (with_cameraMode newMode (st w)))
  /\ (view r = st w -> cameraMode (st w') = opposite (cameraMode (st w)))
  /\ mediaStream (st w') = mediaStream (st w)
  /\ isCameraActive (st w') = isCameraActive (st w)
  /\ capturedImage (st w') = capturedImage (st w)
  /\ (speech_ready r (mode_set_message newMode) w = true ->
      handed_over (mode_set_message newMode) None w w')
  /\ (speech_unavailable r (mode_set_message newMode) = true ->
      silent w w' /\ w' = setCameraMode newMode w)
  /\ count is_device w' = count is_device w
  /\ live_streams w' = live_streams w
  /\ videoRef w' = videoRef w
  /\ count is_recognition_start w' = count is_recognition_start w
  /\ count is_fetch w' = count is_fetch w.
Proof.
  intros Hoff newMode w'. subst w'. unfold switchCamera, switchCamera_begin.
  rewrite Hoff. fold newMode.
  set (msg := mode_set_message newMode).
  set (w1 := setCameraMode newMode w).
  assert (Hst : st (say r msg w1) =
                if speech_unavailable r msg then with_cameraMode newMode (st w)
                else with_isSpeaking false (with_cameraMode newMode (st w)))
    by (rewrite say_st; reflexivity).
  destruct (say_frame r msg w1) as (_ & F2 & _ & F4 & _).
  refine (conj Hst (conj _ (conj _ (conj _ (conj _ (conj _ (conj _ (conj _ (conj F4
            (conj F2 (conj _ _)))))))))));
    simpl fst.
  - intros Hv. rewrite Hst. subst newMode. rewrite Hv.
    now destruct (speech_unavailable r msg).
  - rewrite Hst. now destruct (speech_unavailable r msg).
  - rewrite Hst. now destruct (speech_unavailable r msg).
  - rewrite Hst. now destruct (speech_unavailable r msg).
  - intros Hr. exact (say_when_ready r msg w1 Hr).
  - intros Hu. rewrite (say_unavailable r msg w1 Hu). split; [repeat split | reflexivity].
  - exact (say_count is_device r msg w1 eq_refl (fun _ => eq_refl)).
  - exact (say_count is_recognition_start r msg w1 eq_refl (fun _ => eq_refl)).
  - exact (say_count is_fetch r msg w1 eq_refl (fun _ => eq_refl)).
Qed.

Lemma switchCamera_inactive_witness :
  let r := render_of idle_state in
  let w := world_of idle_state [a_voice] in
  isCameraActive (view r) = false
  /\ cameraMode (st (switchCamera r (Refused "NotFoundError") w)) = user
  /\ count is_device (switchCamera r (Refused "NotFoundError") w) = 0
  /\ synth_queue (switchCamera r (Refused "NotFoundError") w)
     = [mkUtterance "Camera mode set to front camera." (Some a_voice) None].
Proof.
  intros r w. split; [reflexivity | ].
  destruct (switchCamera_inactive r (Refused "NotFoundError") w eq_refl)
    as (_ & Ht & _ & _ & _ & Hs & _ & Hd & _).
  split; [exact (Ht eq_refl) | split; [exact Hd | exact (proj1 (Hs eq_refl))]].
Defined.

(* ------------------------------------------------------------------ *)
(** ** A refused camera switch *)

Lemma MediaStream_eqb_sym a b : MediaStream_eqb a b = MediaStream_eqb b a.
Proof.
  unfold MediaStream_eqb. rewrite Nat.eqb_sym. f_equal.
  now destruct (stream_facing a), (stream_facing b).
Qed.

Lemma stopped_not_live (s : MediaStream) (l : list MediaStream) :
  existsb (MediaStream_eqb s) (filter (fun x => negb (MediaStream_eqb x s)) l) = false.
Proof.
  induction l as [|x l IH]; simpl; [reflexivity | ].
  destruct (MediaStream_eqb x s) eqn:E; simpl; [exact IH | ].
  now rewrite MediaStream_eqb_sym, E, IH.
Qed.

(** X28.  Whenever the request for the other camera is refused during a switch
    of a running camera, the camera mode is put back, but the stream that
    was running has been stopped and stays the session's stream: no
    facing is left with an active capture session. *)
Lemma switchCamera_refused (r : Render) (name : string) (w : World) (old : MediaStream) :
  isCameraActive (view r) = true -> mediaStream (view r) = Some old ->
  let w' := switchCamera r (Refused name) w in
  cameraMode (st w') = cameraMode (view r)
  /\ existsb (MediaStream_eqb old) (live_streams w') = false
  /\ mediaStream (st w') = mediaStream (st w)
  /\ isCameraActive (st w') = isCameraActive (st w)
  /\ (view r = st w -> capturing user w' = false /\ capturing environment w' = false).
Proof.
  intros Ha Hm w'. subst w'.
  unfold switchCamera, switchCamera_begin, switchCamera_resume. rewrite Ha, Hm.
  set (w2 := emit _ _).
  assert (Hl : existsb (MediaStream_eqb old) (live_streams (say r switch_failed_message w2)) = false).
  { destruct (say_frame r switch_failed_message w2) as (_ & _ & _ & F4 & _).
    rewrite F4. apply stopped_not_live. }
  assert (Hs : mediaStream (st (say r switch_failed_message w2)) = mediaStream (st w)
               /\ isCameraActive (st (say r switch_failed_message w2)) = isCameraActive (st w)).
  { rewrite say_st. now destruct (speech_unavailable r switch_failed_message). }
  destruct Hs as (Hs1 & Hs2).
  refine (conj eq_refl (conj Hl (conj Hs1 (conj Hs2 _)))).
  intros Hv. unfold capturing.
  change (mediaStream (st (setCameraMode ?m ?x))) with (mediaStream (st x)).
  change (live_streams (setCameraMode ?m ?x)) with (live_streams x).
  rewrite Hs1, <- Hv, Hm, Hl. now rewrite !andb_false_r.
Qed.

(** C2.  A switch that fails while the back camera is capturing: the mode
    is back to [environment], the camera is still marked active, yet
    neither facing has an active capture session and no stream is live. *)
Theorem switchCamera_failure_stops_both :
  let r := render_of active_state in
  let w := world_of active_state [a_voice] in
  let w' := switchCamera r (Refused "NotReadableError") w in
  capturing environment w = true
  /\ cameraMode (st w') = environment
  /\ isCameraActive (st w') = true
  /\ mediaStream (st w') = Some back_stream
  /\ live_streams w' = []
  /\ capturing environment w' = false
  /\ capturing user w' = false.
Proof. repeat split. Qed.

(* ------------------------------------------------------------------ *)
(** ** The speech watchdog *)

Lemma watchdog_delay_floor text : 5000 <= watchdog_delay text.
Proof. unfold watchdog_delay. lia. Qed.

Lemma watchdog_delay_scaled text : 100 * String.length text <= watchdog_delay text.
Proof. unfold watchdog_delay. lia. Qed.

(** X5.  Handing an utterance to the engine arms the watchdog for
    [watchdog_delay text] milliseconds. *)
Lemma speak_arms_watchdog r text cb w :
  speech_unavailable r text = false -> voices w <> [] -> synth_fails w = false ->
  let w' := speak r text cb w in
  exists id, timers w' = mkTimer id (watchdog_delay text) (TWatchdog r)
                           :: timers (clear_speech_timeout (stopSpeaking r w))
             /\ speechTimeoutRef w' = Some id.
Proof.
  intros H V F w'. subst w'. unfold speak, speak_with. rewrite H.
  destruct (prepared r w (available_synthesis _ _ H)) as (P1 & _ & P3 & _).
  set (w2 := clear_speech_timeout (stopSpeaking r w)) in *. clearbody w2.
  unfold attemptSpeak, setTimeout. rewrite P1, F, P3.
  destruct (voices w) as [|v vs]; [congruence | ]. simpl.
  exists (next_timer w2). split; reflexivity.
Qed.

(** The watchdog reads the speaking flag of the render that armed it: it
    resets the flag when that render saw it set, and does nothing when
    that render saw it clear, whatever the flag is when it fires. *)
Lemma watchdog_stale r w : isSpeaking (view r) = false -> watchdog r w = w.
Proof. intros H. unfold watchdog. now rewrite H. Qed.

Lemma watchdog_resets r w :
  isSpeaking (view r) = true -> isSpeaking (st (watchdog r w)) = false.
Proof. intros H. unfold watchdog. now rewrite H. Qed.

(** C3.  [speak] is called while nothing is being spoken; the watchdog is
    armed for max(5 * 100, 5000) ms; the engine starts the utterance and
    never signals its completion.  When the watchdog fires the speaking
    flag is set, and it stays set. *)
Theorem watchdog_leaves_speaking_stuck :
  let r := render_of active_state in
  let w := world_of active_state [a_voice] in
  let u := mkUtterance "hello" (Some a_voice) None in
  let w1 := speak r "hello" None w in
  let w2 := deliver_start u w1 in
  let w3 := fire_timer 1 w2 in
  isSpeaking (view r) = false
  /\ timers w1 = [mkTimer 1 5000 (TWatchdog r)]
  /\ synth_queue w1 = [u]
  /\ isSpeaking (st w2) = true
  /\ timers w3 = []
  /\ synth_queue w3 = [u]
  /\ isSpeaking (st w3) = true.
Proof. repeat split. Qed.

(* ------------------------------------------------------------------ *)
(** ** Restarting recognition *)

(** When an attempt ends, the handler schedules a restart after
    [restart_delay] exactly when its render shows no error message, an
    active camera and a granted microphone. *)
Lemma recognition_onend_restart (r : Render) (w : World) :
  let go := error_falsy (error (view r)) && isCameraActive (view r)
            && is_granted (microphonePermission (view r)) in
  timers (recognition_onend r w) =
  if go then mkTimer (next_timer w) restart_delay TRestartRecognition :: timers w
  else timers w.
Proof. unfold recognition_onend. simpl. now break_if. Qed.

(** X23.  The render of the handlers is the one of the last run of the effect,
    so an error reported just before the end changes nothing: after an
    error of any code the restart is scheduled as after a clean end. *)
Lemma restart_after_any_error (r : Render) (code : string) (w : World) :
  error (view r) = None -> isCameraActive (view r) = true ->
  is_granted (microphonePermission (view r)) = true ->
  exists id, In (mkTimer id restart_delay TRestartRecognition)
                (timers (deliver_error_then_end r code w)).
Proof.
  intros He Hc Hg. unfold deliver_error_then_end.
  rewrite recognition_onend_restart, He, Hc, Hg. simpl.
  eexists. left. reflexivity.
Qed.

(** The restart itself only asks whether a recognition object exists. *)
Lemma restartRecognition_starts (w : World) (r : Render) :
  recognitionRef w = Some r ->
  count is_recognition_start (restartRecognition w) = S (count is_recognition_start w).
Proof.
  intros H. unfold restartRecognition, recognition_start. rewrite H.
  now destruct (rec_started w).
Qed.

(** C4.  The recogniser reports an error and ends while the camera is
    active and the microphone granted.  After [aborted] the handler
    records no error; after [no-speech] it records one, which the ending
    handler's render does not show.  Either way the restart is scheduled
    for 500 ms later, and when the timer fires recognition is started
    again. *)
Theorem restart_follows_error_end :
  let r := render_of active_state in
  let w := set_rec_started true (world_of active_state [a_voice]) in
  let aborted := deliver_error_then_end r "aborted" w in
  let unheard := deliver_error_then_end r "no-speech" w in
  (error (st aborted) = None
   /\ timers aborted = [mkTimer 1 500 TRestartRecognition]
   /\ count is_recognition_start aborted = 0
   /\ count is_recognition_start (fire_timer 1 aborted) = 1
   /\ rec_started (fire_timer 1 aborted) = true)
  /\ (error (st unheard) = Some no_speech_message
      /\ timers unheard = [mkTimer 1 500 TRestartRecognition]
      /\ count is_recognition_start (fire_timer 1 unheard) = 1).
Proof. repeat split. Qed.

(* ------------------------------------------------------------------ *)
(** ** Completion callbacks of [speak] *)

(** X1.  When nothing can be spoken the callback runs at once, once. *)
Lemma speak_unavailable_once r text id w :
  speech_unavailable r text = true ->
  count (is_callback id) (speak r text (Some (CbExternal id)) w)
  = S (count (is_callback id) w)
  /\ pending_callbacks (speak r text (Some (CbExternal id)) w) = pending_callbacks w.
Proof.
  intros H. rewrite speak_unavailable by exact H. unfold count. simpl.
  now rewrite Nat.eqb_refl.
Qed.

(** X2.  The end of an utterance and an error of the engine each run the
    callback of the utterance once. *)
Lemma utterance_settles_once (u : Utterance) (code : string) (id : nat) (w : World) :
  u_onEnd u = Some (CbExternal id) ->
  count (is_callback id) (utterance_onend run_callback u w) = S (count (is_callback id) w)
  /\ count (is_callback id) (utterance_onerror run_callback u code w)
     = S (count (is_callback id) w).
Proof.
  intros H. unfold utterance_onend, utterance_onerror, invoke, count. rewrite H. simpl.
  now rewrite Nat.eqb_refl.
Qed.

(** X3.  While the engine lists no voice and the render has not seen the
    voices load, [speak] only schedules another attempt: the callback is
    held by that timer alone. *)
Lemma speak_defers_without_voices r text cb w :
  speech_unavailable r text = false -> voices w = [] ->
  isVoicesLoaded (view r) = false ->
  let w' := speak r text cb w in
  exists id, speechTimeoutRef w' = Some id
             /\ timers w' = mkTimer id 100 (TAttemptSpeak r text cb)
                              :: timers (clear_speech_timeout (stopSpeaking r w))
             /\ synth_queue w' = []
             /\ trace w' = trace (clear_speech_timeout (stopSpeaking r w)).
Proof.
  intros H V L w'. subst w'. unfold speak, speak_with. rewrite H.
  destruct (prepared r w (available_synthesis _ _ H)) as (_ & _ & P3 & P4 & _).
  set (w2 := clear_speech_timeout (stopSpeaking r w)) in *. clearbody w2.
  unfold attemptSpeak, setTimeout. rewrite P3, V, L. simpl.
  exists (next_timer w2). repeat split. exact P4.
Qed.

(** Once an utterance has been handed to the engine its callback runs
    once, when the utterance ends and when it is cancelled alike. *)
Example speak_callback_after_hand_over :
  let r := render_of active_state in
  let w := world_of active_state [a_voice] in
  let w1 := speak r "Camera started." (Some (CbExternal 7)) w in
  let ended := deliver_end w1 in
  let cancelled := deliver_cancelled (stopSpeaking r w1) in
  pending_callbacks w1 = [CbExternal 7]
  /\ (count (is_callback 7) ended = 1 /\ pending_callbacks ended = [])
  /\ (count (is_callback 7) cancelled = 1 /\ pending_callbacks cancelled = []).
Proof. repeat split. Qed.

(** C1.  [speak] is called with a callback before the engine lists its
    voices, so the attempt is deferred; then the speech is stopped, or
    another [speak] call arrives.  The deferred attempt is cleared and its
    callback with it: callback 7 has not run, and no timer and no
    utterance holds it any more. *)
Theorem speak_callback_lost :
  let r := render_of early_state in
  let w := world_of early_state [] in
  let w1 := speak r "Camera started." (Some (CbExternal 7)) w in
  let stopped := stopSpeaking r w1 in
  let superseded := speak r "Camera stopped." (Some (CbExternal 8)) w1 in
  speech_unavailable r "Camera started." = false
  /\ pending_callbacks w1 = [CbExternal 7]
  /\ (count (is_callback 7) stopped = 0
      /\ pending_callbacks stopped = []
      /\ timers stopped = [] /\ synth_queue stopped = [] /\ synth_cancelled stopped = [])
  /\ (count (is_callback 7) superseded = 0
      /\ pending_callbacks superseded = [CbExternal 8]
      /\ synth_queue superseded = [] /\ synth_cancelled superseded = []).
Proof. repeat split. Qed.

(* ------------------------------------------------------------------ *)
(** ** Failures of the vision query *)

(** Without a credential the call fails before it sends anything. *)
Lemma analyze_unconfigured key network image question :
  Query.key_present key = None ->
  Query.analyzeImageWithOpenAI key network image question
  = ([], Query.Threw Query.unconfigured_message).
Proof. intros H. unfold Query.analyzeImageWithOpenAI. now rewrite H. Qed.

(** A call sends at most one request. *)
Lemma analyze_single_attempt key network image question :
  List.length (fst (Query.analyzeImageWithOpenAI key network image question)) <= 1.
Proof.
  unfold Query.analyzeImageWithOpenAI. destruct (Query.key_present key); simpl; lia.
Qed.

(** A response outside the 2xx range whose body parses fails with a
    message made of the status and of the upstream error text, or of the
    status text when there is none. *)
Lemma analyze_rejected_status key k network image question resp errorData :
  Query.key_present key = Some k ->
  network (Query.build_request k image question) = Query.FetchResolved resp ->
  Query.ok resp = false -> Query.body resp = Query.Parsed errorData ->
  snd (Query.analyzeImageWithOpenAI key network image question)
  = Query.Threw ("API request failed: " ++ Str.of_nat (Query.status resp) ++ " - "
                 ++ Query.upstream_text errorData resp).
Proof.
  intros Hk Hn Ho Hb. unfold Query.analyzeImageWithOpenAI, Query.after_fetch.
  rewrite Hk. simpl. now rewrite Hn, Ho, Hb.
Qed.

Lemma upstream_text_given (resp : Query.Response) (text : string) rest more :
  Str.truthy text = true ->
  Query.upstream_text
    (Query.JObj (rest ++ [("error", Query.JObj (more ++ [("message", Query.JStr text)]))]))
    resp = text.
Proof.
  intros H. unfold Query.upstream_text, Query.prop.
  assert (L : forall k v l, Query.lookup k (l ++ [(k, v)]) = Some v).
  { intros k v l. induction l as [|[k' v'] l IH]; simpl.
    - now rewrite String.eqb_refl.
    - now rewrite IH. }
  rewrite L, L. simpl. now rewrite H.
Qed.

(** A 2xx response whose body parses to something other than [null] and
    lacks the answer fails as an invalid response. *)
Lemma analyze_missing_answer key k network image question resp data :
  Query.key_present key = Some k ->
  network (Query.build_request k image question) = Query.FetchResolved resp ->
  Query.ok resp = true -> Query.body resp = Query.Parsed data -> data <> Query.JNull ->
  Query.answer_of data = None ->
  snd (Query.analyzeImageWithOpenAI key network image question)
  = Query.Threw Query.invalid_response_message.
Proof.
  intros Hk Hn Ho Hb Hd Ha. unfold Query.analyzeImageWithOpenAI, Query.after_fetch.
  rewrite Hk. simpl. rewrite Hn, Ho, Hb. simpl.
  destruct data; try congruence; now rewrite Ha.
Qed.

(** C8.  A gateway answers 502 with a body that is not JSON: the call
    sends its one request and fails, with the message of the parse error,
    which names neither the status nor the status text. *)
Theorem analyze_unparsable_error_body :
  let bad_gateway :=
    Query.mkResponse 502 "Bad Gateway"
      (Query.Unparsable "Unexpected token '<', is not valid JSON") in
  let outcome :=
    Query.analyzeImageWithOpenAI (Some "sk-test") (fun _ => Query.FetchResolved bad_gateway)
      "data:image/jpeg;base64,AAAA" "What do you see?" in
  Query.ok bad_gateway = false
  /\ List.length (fst outcome) = 1
  /\ (exists m, snd outcome = Query.Threw m
                 /\ m = "Unexpected token '<', is not valid JSON"
                 /\ Str.includes "502" m = false
                 /\ Str.includes "Bad Gateway" m = false).
Proof.
  repeat split. eexists. repeat split.
Qed.

(* ================================================================== *)
(** * Further properties of the session code *)

(** ** Stopping speech *)

(** Evaluates world updates on a world given by its fields. *)
Ltac world_compute :=
  cbv beta iota zeta delta
    [stopSpeaking clear_speech_timeout setTimeout synth_busy synth_cancel
     clearTimeout setIsSpeaking upd_st emit set_synth set_timers set_utteranceRef
     set_speechTimeoutRef set_live_streams set_videoRef stop_tracks recognition_stop
     st recognitionRef utteranceRef speechTimeoutRef videoRef
     canvasRef timers next_timer voices synth_queue synth_cancelled synth_fails
     rec_started live_streams trace negb].

Lemma filter_idempotent {A} (p : A -> bool) (l : list A) :
  filter p (filter p l) = filter p l.
Proof.
  induction l as [|a l IH]; simpl; [reflexivity | ].
  destruct (p a) eqn:E; simpl; rewrite ?E, IH; reflexivity.
Qed.

Lemma find_cleared (id : nat) (l : list Timer) :
  find (fun t => (timer_id t =? id)%nat)
       (filter (fun t => negb (timer_id t =? id)%nat) l) = None.
Proof.
  induction l as [|t l IH]; simpl; [reflexivity | ].
  destruct (timer_id t =? id)%nat eqn:E; simpl; rewrite ?E; exact IH.
Qed.

(** X7.  [stopSpeaking] is idempotent: a second call changes nothing. *)
Theorem stopSpeaking_idempotent (r : Render) (w : World) :
  stopSpeaking r (stopSpeaking r w) = stopSpeaking r w.
Proof.
  destruct (hasSpeechSynthesis r) eqn:Hs; unfold stopSpeaking; rewrite Hs; simpl;
    [ | reflexivity].
  destruct w as [s0 rr ur tr vr cr ts nt vs q c sf rs ls tc].
  destruct q, tr; world_compute; rewrite ?filter_idempotent; reflexivity.
Qed.

(** X8.  Where speech synthesis exists, [stopSpeaking] leaves the speaking flag
    clear, no current utterance and an empty engine queue whose former
    utterances are all cancelled, and the timeout that [speak] had stored
    (a deferred attempt or the watchdog) can no longer run. *)
Theorem stopSpeaking_settles (r : Render) (w : World) :
  hasSpeechSynthesis r = true ->
  let w' := stopSpeaking r w in
  isSpeaking (st w') = false
  /\ utteranceRef w' = None
  /\ synth_queue w' = []
  /\ (synth_queue w' ++ synth_cancelled w' = synth_queue w ++ synth_cancelled w)%list
  /\ (forall id, speechTimeoutRef w = Some id -> fire_timer id w' = w').
Proof.
  intros Hs w'. subst w'. unfold stopSpeaking. rewrite Hs. simpl.
  destruct w as [s0 rr ur tr vr cr ts nt vs q c sf rs ls tc].
  destruct q, tr; world_compute; repeat split; try discriminate;
    intros id H; injection H as <-; unfold fire_timer; world_compute;
    now rewrite find_cleared.
Qed.

Lemma stopSpeaking_settles_witness :
  let r := render_of active_state in
  let w := speak r "hello" (Some (CbExternal 3)) (world_of active_state [a_voice]) in
  speechTimeoutRef w = Some 1
  /\ synth_queue (stopSpeaking r w) = []
  /\ fire_timer 1 (stopSpeaking r w) = stopSpeaking r w.
Proof.
  intros r w. split; [reflexivity | ].
  destruct (stopSpeaking_settles r w eq_refl) as (_ & _ & Hq & _ & Hf).
  split; [exact Hq | exact (Hf 1 eq_refl)].
Defined.

(** ** One utterance at a time *)

Lemma say_queue r text w :
  List.length (synth_queue w) <= 1 -> List.length (synth_queue (say r text w)) <= 1.
Proof.
  intros H. unfold say, speak_with, invoke.
  destruct (speech_unavailable r text) eqn:E; [exact H | ].
  destruct (prepared r w (available_synthesis _ _ E)) as (_ & _ & _ & P4 & _).
  set (w2 := clear_speech_timeout (stopSpeaking r w)) in *. clearbody w2.
  unfold attemptSpeak, setTimeout. repeat break_if; simpl; rewrite ?P4; simpl; lia.
Qed.

Lemma run_callback_queue c w :
  List.length (synth_queue w) <= 1 -> List.length (synth_queue (run_callback c w)) <= 1.
Proof.
  intros H. destruct c as [id | r | r q]; simpl.
  - exact H.
  - unfold startListening_prompted, recognition_start.
    repeat break_if; simpl; try exact H;
      try match goal with H : (_, _) = (_, _) |- _ => injection H as <- <- end;
      try discriminate; try exact H.
    change (List.length (synth_queue (say r cannot_start_message
              (setError (Some cannot_start_message) (emit EvRecognitionStart w)))) <= 1).
    apply say_queue. exact H.
  - unfold processQuestion_begin, processQuestion_catch, captureImage.
    repeat (break_if; simpl); try exact H;
      repeat match goal with
        | |- context [match ?x with EmptyString => _ | String _ _ => _ end] =>
            destruct x; simpl
        end;
      try exact H;
      match goal with
      | |- context [say ?a ?b ?x] =>
          change (List.length (synth_queue (say a b x)) <= 1); apply say_queue; exact H
      end.
Qed.

(** X6.  [speak] keeps at most one utterance in the engine: a call that speaks
    leaves at most one whatever was queued before, and a call that cannot
    speak adds none beyond what its callback says. *)
Theorem speak_single_utterance (r : Render) (text : string) (cb : option Callback)
    (w : World) :
  speech_unavailable r text = false \/ List.length (synth_queue w) <= 1 ->
  List.length (synth_queue (speak r text cb w)) <= 1.
Proof.
  intros H. unfold speak, speak_with, invoke.
  destruct (speech_unavailable r text) eqn:E.
  - destruct H as [H | H]; [discriminate | ].
    destruct cb; [apply run_callback_queue | ]; exact H.
  - destruct (prepared r w (available_synthesis _ _ E)) as (_ & _ & _ & P4 & _).
    set (w2 := clear_speech_timeout (stopSpeaking r w)) in *. clearbody w2.
    unfold attemptSpeak, setTimeout. repeat break_if; simpl; rewrite ?P4; simpl; try lia.
    all: apply run_callback_queue; simpl; rewrite P4; simpl; lia.
Qed.

Lemma speak_single_utterance_witness :
  let r := render_of active_state in
  let w := world_of active_state [a_voice] in
  let w1 := speak r "first" None w in
  List.length (synth_queue w1) = 1
  /\ List.length (synth_queue (speak r "second" None w1)) <= 1.
Proof.
  intros r w w1. split; [reflexivity | ].
  apply (speak_single_utterance r "second" None w1). left. reflexivity.
Defined.

(** ** Deferred attempts and the watchdog's arming *)

Lemma speak_arms_watchdog_witness :
  let r := render_of active_state in
  let w := world_of active_state [a_voice] in
  exists id,
    timers (speak r "Camera started." None w)
    = mkTimer id (watchdog_delay "Camera started.") (TWatchdog r)
        :: timers (clear_speech_timeout (stopSpeaking r w))
    /\ speechTimeoutRef (speak r "Camera started." None w) = Some id.
Proof.
  intros r w.
  refine (speak_arms_watchdog r "Camera started." None w eq_refl _ eq_refl). discriminate.
Defined.

(** X4.  When the timer of a deferred attempt fires, the attempt runs again
    with the same text and callback: it is deferred once more while the
    engine still lists no voice, and otherwise the utterance, carrying
    the callback, joins the engine's queue and the watchdog is armed. *)
Theorem deferred_attempt_resumes (id : nat) (r : Render) (text : string)
    (cb : option Callback) (w : World) :
  find (fun t => (timer_id t =? id)%nat) (timers w)
  = Some (mkTimer id 100 (TAttemptSpeak r text cb)) ->
  let w' := fire_timer id w in
  (voices w = [] -> isVoicesLoaded (view r) = false ->
     synth_queue w' = synth_queue w /\ trace w' = trace w
     /\ speechTimeoutRef w' = Some (next_timer w)
     /\ timers w' = mkTimer (next_timer w) 100 (TAttemptSpeak r text cb)
                      :: timers (clearTimeout id w))
  /\ (voices w <> [] \/ isVoicesLoaded (view r) = true -> synth_fails w = false ->
     synth_queue w'
     = (synth_queue w ++ [mkUtterance (Str.trim text) (preferredVoice (voices w)) cb])%list
     /\ utteranceRef w' = Some (mkUtterance (Str.trim text) (preferredVoice (voices w)) cb)
     /\ timers w' = mkTimer (next_timer w) (watchdog_delay text) (TWatchdog r)
                      :: timers (clearTimeout id w)).
Proof.
  intros H w'. subst w'. unfold fire_timer. rewrite H. simpl.
  unfold attemptSpeak, setTimeout. simpl. split.
  - intros V L. rewrite V, L. simpl. repeat split.
  - intros V F. rewrite F.
    assert (E : (List.length (voices w) =? 0)%nat && negb (isVoicesLoaded (view r)) = false).
    { destruct V as [V | V].
      - destruct (voices w); [congruence | reflexivity].
      - rewrite V. apply andb_false_r. }
    rewrite E. simpl. repeat split.
Qed.

Lemma deferred_attempt_resumes_witness :
  let r := render_of early_state in
  let pending := [mkTimer 1 100 (TAttemptSpeak r "Camera started." (Some (CbExternal 7)))] in
  let w := mkWorld early_state (Some r) None (Some 1) (Some a_video) (Some (mkCanvas true 0 0))
             pending 2 [] [] [] false false [back_stream] [] in
  let arrived := mkWorld early_state (Some r) None (Some 1) (Some a_video)
                   (Some (mkCanvas true 0 0)) pending 2 [a_voice] [] [] false false
                   [back_stream] [] in
  synth_queue (fire_timer 1 w) = []
  /\ synth_queue (fire_timer 1 arrived)
     = [mkUtterance "Camera started." (Some a_voice) (Some (CbExternal 7))].
Proof.
  intros r pending w arrived. split.
  - destruct (deferred_attempt_resumes 1 r "Camera started." (Some (CbExternal 7)) w eq_refl)
      as (H & _).
    destruct (H eq_refl eq_refl) as (Hq & _). exact Hq.
  - destruct (deferred_attempt_resumes 1 r "Camera started." (Some (CbExternal 7)) arrived
                eq_refl) as (_ & H).
    assert (V : voices arrived <> []) by discriminate.
    destruct (H (or_introl V) eq_refl) as (Hq & _). exact Hq.
Defined.

(** ** The choice of a voice *)

(** X9.  [speak] only ever picks an English voice of the engine's list; it
    picks none exactly when the list has no English voice; a branded
    English voice (Google, Microsoft, Natural) wins over the others, and
    failing that a local English voice wins. *)
Theorem preferredVoice_sound (vs : list Voice) :
  (forall v, preferredVoice vs = Some v -> In v vs /\ english v = true)
  /\ (preferredVoice vs = None <-> forall v, In v vs -> english v = false)
  /\ (forall v0, In v0 vs -> english v0 = true -> branded v0 = true ->
        exists v, preferredVoice vs = Some v /\ branded v = true)
  /\ (forall v0, In v0 vs -> english v0 = true -> localService v0 = true ->
        exists v, preferredVoice vs = Some v /\ (branded v = true \/ localService v = true)).
Proof.
  unfold preferredVoice, orElse.
  destruct (find (fun v => english v && branded v) vs) as [a|] eqn:Fa;
    [ | destruct (find (fun v => english v && localService v) vs) as [b|] eqn:Fb;
        [ | destruct (find english vs) as [c|] eqn:Fc ] ].
  - apply find_some in Fa as [Ia Ha]. apply andb_true_iff in Ha as [Ha1 Ha2].
    repeat split.
    + injection H as <-. exact Ia.
    + injection H as <-. exact Ha1.
    + discriminate.
    + intros H. rewrite (H a Ia) in Ha1. discriminate.
    + intros. exists a. auto.
    + intros. exists a. auto.
  - apply find_some in Fb as [Ib Hb]. apply andb_true_iff in Hb as [Hb1 Hb2].
    repeat split.
    + injection H as <-. exact Ib.
    + injection H as <-. exact Hb1.
    + discriminate.
    + intros H. rewrite (H b Ib) in Hb1. discriminate.
    + intros v0 I0 E0 B0. pose proof (find_none _ _ Fa v0 I0) as N. simpl in N.
      rewrite E0, B0 in N. discriminate.
    + intros. exists b. auto.
  - apply find_some in Fc as [Ic Hc].
    repeat split.
    + injection H as <-. exact Ic.
    + injection H as <-. exact Hc.
    + discriminate.
    + intros H. rewrite (H c Ic) in Hc. discriminate.
    + intros v0 I0 E0 B0. pose proof (find_none _ _ Fa v0 I0) as N. simpl in N.
      rewrite E0, B0 in N. discriminate.
    + intros v0 I0 E0 L0. pose proof (find_none _ _ Fb v0 I0) as N. simpl in N.
      rewrite E0, L0 in N. discriminate.
  - repeat split; try discriminate.
    + intros _ v Iv. exact (find_none _ _ Fc v Iv).
    + intros v0 I0 E0 _. pose proof (find_none _ _ Fc v0 I0) as N. simpl in N. congruence.
    + intros v0 I0 E0 _. pose proof (find_none _ _ Fc v0 I0) as N. simpl in N. congruence.
Qed.

Lemma preferredVoice_sound_witness :
  let plain := mkVoice "Samantha" "en-GB" true in
  let other := mkVoice "Amelie" "fr-FR" true in
  exists v, preferredVoice [other; plain; a_voice] = Some v /\ branded v = true.
Proof.
  intros plain other.
  destruct (preferredVoice_sound [other; plain; a_voice]) as (_ & _ & H & _).
  apply (H a_voice); [simpl; auto | reflexivity | reflexivity].
Defined.

(** ** Capturing a frame *)

(** X10.  [captureImage] yields a frame exactly when the video and canvas
    elements exist, the video has data for the current frame
    ([readyState] at least 2) and a width, and the canvas gives a 2d
    context; then the canvas takes the video's dimensions and the frame
    is the video's.  Otherwise it yields [null] and changes nothing.  The
    component state is never touched. *)
Theorem captureImage_ready (w : World) :
  let ready := match videoRef w, canvasRef w with
               | Some video, Some canvas =>
                   (2 <=? readyState video)%nat && negb (videoWidth video =? 0)%nat
                   && has2d canvas
               | _, _ => false
               end in
  st (snd (captureImage w)) = st w
  /\ (ready = false -> captureImage w = (None, w))
  /\ (ready = true ->
      exists video, videoRef w = Some video
        /\ fst (captureImage w) = Some (frame video)
        /\ canvasRef (snd (captureImage w))
           = Some (mkCanvas true (videoWidth video) (videoHeight video))
        /\ videoRef (snd (captureImage w)) = videoRef w).
Proof.
  unfold captureImage.
  destruct (videoRef w) as [video|] eqn:V; [ | repeat split; discriminate].
  destruct (canvasRef w) as [canvas|] eqn:C; [ | repeat split; discriminate].
  assert (R : (2 <=? readyState video)%nat = negb (readyState video <? 2)%nat)
    by (destruct (Nat.ltb_spec (readyState video) 2), (Nat.leb_spec 2 (readyState video));
        simpl; auto; lia).
  rewrite R.
  destruct (readyState video <? 2)%nat, (videoWidth video =? 0)%nat, (has2d canvas);
    simpl; repeat split; try discriminate; try reflexivity;
    intros _; exists video; repeat split; auto.
Qed.

Lemma captureImage_ready_witness :
  let w := world_of active_state [a_voice] in
  let warming := set_videoRef (Some (mkVideo 1 0 0 "" (Some back_stream))) w in
  captureImage warming = (None, warming)
  /\ fst (captureImage w) = Some "data:image/jpeg;base64,AAAA".
Proof.
  intros w warming. split.
  - destruct (captureImage_ready warming) as (_ & H & _). exact (H eq_refl).
  - destruct (captureImage_ready w) as (_ & _ & H).
    destruct (H eq_refl) as (video & Hv & Hf & _).
    rewrite Hf. injection Hv as <-. reflexivity.
Defined.

(** ** The request and the answers of the vision query *)

Lemma prefix_append (n b : string) : String.prefix n (n ++ b) = true.
Proof.
  induction n as [|c n IH]; simpl; [now destruct b | ].
  destruct (ascii_dec c c); [exact IH | congruence].
Qed.

Lemma includes_prefix (n s : string) :
  String.prefix n s = true -> Str.includes n s = true.
Proof.
  intros H. destruct s; cbn [Str.includes]; apply orb_true_iff; left; exact H.
Qed.

Lemma includes_here (n b : string) : Str.includes n (n ++ b) = true.
Proof. apply includes_prefix, prefix_append. Qed.

Lemma includes_skip (n a s : string) :
  Str.includes n s = true -> Str.includes n (a ++ s) = true.
Proof.
  intros H. induction a as [|c a IH]; simpl; [exact H | ].
  rewrite IH. apply orb_true_r.
Qed.

Lemma includes_self (n : string) : Str.includes n n = true.
Proof.
  apply includes_prefix. induction n as [|c n IH]; simpl; [reflexivity | ].
  destruct (ascii_dec c c); [exact IH | congruence].
Qed.

Lemma answer_of_truthy data v : Query.answer_of data = Some v -> Query.truthy v = true.
Proof.
  unfold Query.answer_of.
  repeat match goal with
    | |- context [match ?x with _ => _ end] => destruct x eqn:?; try discriminate
    end.
  intros H. injection H as <-. assumption.
Qed.

(** X11.  With a credential, the one request goes to the chat-completions
    address with the credential as bearer token, carries the image with
    the low-detail hint, and its prompt contains the question word for
    word; what the network answers has no part in it. *)
Theorem analyze_request_contents (key : option string) (k : string)
    (network network' : Request -> Query.FetchOutcome) (image question : string) :
  Query.key_present key = Some k ->
  exists req,
    fst (Query.analyzeImageWithOpenAI key network image question) = [req]
    /\ fst (Query.analyzeImageWithOpenAI key network' image question) = [req]
    /\ key = Some k /\ Str.truthy k = true
    /\ req_url req = Query.OPENAI_API_URL
    /\ req_authorization req = "Bearer " ++ k
    /\ req_image req = image
    /\ req_detail req = "low"
    /\ Str.includes question (req_prompt req) = true.
Proof.
  intros H. exists (Query.build_request k image question).
  assert (P : Str.includes question (req_prompt (Query.build_request k image question)) = true).
  { unfold Query.build_request. cbn [req_prompt]. unfold Query.prompt_for.
    apply includes_skip, includes_skip, includes_here. }
  assert (K : key = Some k /\ Str.truthy k = true).
  { unfold Query.key_present in H. destruct key as [k'|]; [ | discriminate].
    destruct (Str.truthy k') eqn:T; [ | discriminate]. injection H as <-. auto. }
  destruct K as (K1 & K2).
  unfold Query.analyzeImageWithOpenAI. rewrite H.
  refine (conj eq_refl (conj eq_refl (conj K1 (conj K2 (conj eq_refl (conj eq_refl
            (conj eq_refl (conj eq_refl P)))))))).
Qed.

Lemma analyze_request_contents_witness :
  exists req,
    fst (Query.analyzeImageWithOpenAI (Some "sk-test") (fun _ => Query.FetchRejected "offline")
           "data:," "What do you see?") = [req]
    /\ req_authorization req = "Bearer sk-test"
    /\ Str.includes "What do you see?" (req_prompt req) = true.
Proof.
  destruct (analyze_request_contents (Some "sk-test") "sk-test"
              (fun _ => Query.FetchRejected "offline")
              (fun _ => Query.FetchRejected "offline") "data:," "What do you see?" eq_refl)
    as (req & H1 & _ & _ & _ & _ & H2 & _ & _ & H3).
  exists req. repeat split; assumption.
Defined.

(** X13.  A response outside the 2xx range whose body parses as JSON makes the
    call fail after its one request, with a message that contains the
    status in decimal and the upstream text: the [error.message] of the
    body when that is present and truthy, the status text otherwise. *)
Theorem analyze_rejected_names_status (key : option string) (k : string)
    (network : Request -> Query.FetchOutcome) (image question : string)
    (resp : Query.Response) (errorData : Query.Json) :
  Query.key_present key = Some k ->
  network (Query.build_request k image question) = Query.FetchResolved resp ->
  Query.ok resp = false -> Query.body resp = Query.Parsed errorData ->
  exists m,
    Query.analyzeImageWithOpenAI key network image question
    = ([Query.build_request k image question], Query.Threw m)
    /\ Str.includes (Str.of_nat (Query.status resp)) m = true
    /\ Str.includes (Query.upstream_text errorData resp) m = true.
Proof.
  intros Hk Hn Ho Hb.
  exists ("API request failed: " ++ Str.of_nat (Query.status resp) ++ " - "
          ++ Query.upstream_text errorData resp).
  repeat split.
  - unfold Query.analyzeImageWithOpenAI, Query.after_fetch. rewrite Hk. simpl.
    now rewrite Hn, Ho, Hb.
  - apply includes_skip, includes_here.
  - apply includes_skip, includes_skip, includes_skip, includes_self.
Qed.

Lemma analyze_rejected_names_status_witness :
  let quota := Query.JObj [("error", Query.JObj [("message", Query.JStr "Rate limit reached")])] in
  let resp := Query.mkResponse 429 "Too Many Requests" (Query.Parsed quota) in
  exists m,
    snd (Query.analyzeImageWithOpenAI (Some "sk-test") (fun _ => Query.FetchResolved resp)
           "data:," "What do you see?") = Query.Threw m
    /\ Str.includes "429" m = true
    /\ Str.includes "Rate limit reached" m = true.
Proof.
  intros quota resp.
  destruct (analyze_rejected_names_status (Some "sk-test") "sk-test"
              (fun _ => Query.FetchResolved resp) "data:," "What do you see?" resp quota
              eq_refl eq_refl eq_refl eq_refl) as (m & H1 & H2 & H3).
  exists m. split; [now rewrite H1 | split; [exact H2 | exact H3]].
Defined.

(** X15.  Whenever the call returns, what it returns is truthy (never an empty
    answer), it is the content of the first choice of a 2xx response that
    parsed, and exactly one request was sent, with a credential. *)
Theorem analyze_returns_answer (key : option string)
    (network : Request -> Query.FetchOutcome) (image question : string) (v : Query.Json) :
  snd (Query.analyzeImageWithOpenAI key network image question) = Query.Returned v ->
  Query.truthy v = true
  /\ exists k resp data,
       Query.key_present key = Some k
       /\ fst (Query.analyzeImageWithOpenAI key network image question)
          = [Query.build_request k image question]
       /\ network (Query.build_request k image question) = Query.FetchResolved resp
       /\ Query.ok resp = true
       /\ Query.body resp = Query.Parsed data
       /\ Query.answer_of data = Some v.
Proof.
  unfold Query.analyzeImageWithOpenAI, Query.after_fetch.
  destruct (Query.key_present key) as [k|] eqn:Hk; simpl; [ | discriminate].
  destruct (network (Query.build_request k image question)) as [m|resp] eqn:Hn;
    [discriminate | ].
  destruct (Query.ok resp) eqn:Ho; simpl;
    [ | destruct (Query.body resp); discriminate].
  destruct (Query.body resp) as [m|data] eqn:Hb; [discriminate | ].
  assert (G : forall d, d = data ->
              match Query.answer_of d with
              | Some content => Query.Returned content
              | None => Query.Threw Query.invalid_response_message
              end = Query.Returned v ->
              Query.truthy v = true /\ Query.answer_of data = Some v).
  { intros d -> H. destruct (Query.answer_of data) as [c|] eqn:Ha; [ | discriminate].
    injection H as <-. split; [exact (answer_of_truthy _ _ Ha) | reflexivity]. }
  intros H.
  assert (G' : Query.truthy v = true /\ Query.answer_of data = Some v)
    by (destruct data; try discriminate; exact (G _ eq_refl H)).
  destruct G' as (G1 & G2). split; [exact G1 | ].
  exists k, resp, data. repeat split; auto.
Qed.

Lemma analyze_returns_answer_witness :
  let reply := Query.JObj [("choices", Query.JArr [Query.JObj
                 [("message", Query.JObj [("content", Query.JStr "A red mug on a wooden table.")])]])] in
  let network := fun _ : Request =>
                   Query.FetchResolved (Query.mkResponse 200 "OK" (Query.Parsed reply)) in
  snd (Query.analyzeImageWithOpenAI (Some "sk-test") network "data:," "What do you see?")
  = Query.Returned (Query.JStr "A red mug on a wooden table.")
  /\ Query.truthy (Query.JStr "A red mug on a wooden table.") = true.
Proof.
  intros reply network. split; [reflexivity | ].
  exact (proj1 (analyze_returns_answer (Some "sk-test") network "data:,"
                  "What do you see?" _ eq_refl)).
Defined.

(** ** What a speaking [speak] call changes *)

Lemma prepared_state r w :
  hasSpeechSynthesis r = true ->
  let w2 := clear_speech_timeout (stopSpeaking r w) in
  st w2 = with_isSpeaking false (st w) /\ recognitionRef w2 = recognitionRef w
  /\ rec_started w2 = rec_started w /\ live_streams w2 = live_streams w.
Proof.
  intros Hs. unfold stopSpeaking, clear_speech_timeout, synth_busy, synth_cancel, clearTimeout.
  rewrite Hs. simpl. destruct (synth_queue w) eqn:Q; simpl;
    repeat break_if; simpl; repeat split; auto.
Qed.

Lemma speak_hands_over r text cb w :
  speech_unavailable r text = false -> synth_fails w = false ->
  let w' := speak r text cb w in
  st w' = with_isSpeaking false (st w)
  /\ recognitionRef w' = recognitionRef w
  /\ rec_started w' = rec_started w
  /\ (forall p, p EvSynthCancel = false -> (forall u, p (EvSynthSpeak u) = false) ->
        count p w' = count p w)
  /\ (voices w <> [] \/ isVoicesLoaded (view r) = true ->
        synth_queue w' = [mkUtterance (Str.trim text) (preferredVoice (voices w)) cb]).
Proof.
  intros H F w'. subst w'. unfold speak, speak_with. rewrite H.
  destruct (prepared r w (available_synthesis _ _ H)) as (P1 & _ & P3 & P4 & P5).
  destruct (prepared_state r w (available_synthesis _ _ H)) as (S1 & S2 & S3 & _).
  set (w2 := clear_speech_timeout (stopSpeaking r w)) in *. clearbody w2.
  unfold attemptSpeak, setTimeout. rewrite P1, F, P3.
  destruct ((List.length (voices w) =? 0)%nat && negb (isVoicesLoaded (view r))) eqn:E; simpl.
  - repeat split; auto.
    + intros p Hc Hu. unfold count. simpl. destruct P5 as [P5 | P5]; rewrite P5; simpl;
        rewrite ?Hc; reflexivity.
    + intros [V | V].
      * destruct (voices w); [congruence | discriminate].
      * rewrite V, andb_false_r in E. discriminate.
  - repeat split; auto.
    + intros p Hc Hu. unfold count. simpl. rewrite Hu.
      destruct P5 as [P5 | P5]; rewrite P5; simpl; rewrite ?Hc; reflexivity.
    + intros _. now rewrite P4.
Qed.

(** ** Sending the question *)

Lemma count_captureImage p w : count p (snd (captureImage w)) = count p w.
Proof. unfold captureImage. repeat break_if; reflexivity. Qed.

(** X16.  [processQuestion] sends a request exactly when its render shows the
    camera active, a frame can be captured and a credential is present.
    Then it sends one, with that frame and the question in the prompt,
    records the frame and waits.  Otherwise it sends none and finishes at
    once with the processing flag cleared and one of three messages
    recorded as the error. *)
Theorem processQuestion_request_gate (r : Render) (question : string) (w : World) :
  let w' := fst (processQuestion_begin r question w) in
  let ready :=
    isCameraActive (view r)
    && match fst (captureImage w) with Some img => Str.truthy img | None => false end
    && match Query.key_present (OPENAI_API_KEY r) with Some _ => true | None => false end in
  (ready = true ->
     exists req,
       snd (processQuestion_begin r question w) = AwaitingFetch req
       /\ trace w' = EvFetch req :: trace w
       /\ count is_fetch w' = S (count is_fetch w)
       /\ Some (req_image req) = fst (captureImage w)
       /\ Str.includes question (req_prompt req) = true
       /\ capturedImage (st w') = fst (captureImage w))
  /\ (ready = false ->
     snd (processQuestion_begin r question w) = Finished
     /\ count is_fetch w' = count is_fetch w
     /\ isProcessing (st w') = false
     /\ exists m, error (st w') = Some m
                  /\ In m [camera_inactive_message; capture_failed_message;
                           Query.unconfigured_message]).
Proof.
  intros w' ready. subst w' ready. unfold processQuestion_begin.
  pose proof (count_captureImage is_fetch w) as T.
  assert (Tr : trace (snd (captureImage w)) = trace w)
    by (unfold captureImage; repeat break_if; reflexivity).
  destruct (isCameraActive (view r)); simpl.
  2: { split; [discriminate | intros _]. repeat split.
       - exact (say_count is_fetch r _ (setError (Some camera_inactive_message) w)
                  eq_refl (fun _ => eq_refl)).
       - exists camera_inactive_message. split; [ | simpl; auto].
         apply (announce_state r camera_inactive_message w). }
  destruct (captureImage w) as [image w0]. simpl in T, Tr. simpl fst.
  destruct image as [[|c img]|]; simpl.
  1, 3: split; [discriminate | intros _]; repeat split;
    [ rewrite <- T;
      exact (say_count is_fetch r _ (setError (Some capture_failed_message) w0)
               eq_refl (fun _ => eq_refl))
    | exists capture_failed_message; split; [ | simpl; auto];
      apply (announce_state r capture_failed_message w0) ].
  destruct (Query.key_present (OPENAI_API_KEY r)) as [k|]; simpl.
  - split; [intros _ | discriminate].
    exists (Query.build_request k (String c img) question).
    assert (P : Str.includes question
                  (req_prompt (Query.build_request k (String c img) question)) = true).
    { unfold Query.build_request. cbn [req_prompt]. unfold Query.prompt_for.
      apply includes_skip, includes_skip, includes_here. }
    refine (conj eq_refl (conj _ (conj _ (conj eq_refl (conj P eq_refl))))).
    + now rewrite Tr.
    + unfold count. simpl. f_equal. exact T.
  - split; [discriminate | intros _]. unfold processQuestion_catch. simpl.
    repeat split.
    + rewrite <- T.
      exact (say_count is_fetch r _
               (setAssistantResponse Query.unconfigured_message
                  (setError (Some Query.unconfigured_message)
                     (setCapturedImage (Some (String c img)) w0)))
               eq_refl (fun _ => eq_refl)).
    + exists Query.unconfigured_message. split; [ | simpl; auto].
      rewrite say_st. now destruct (speech_unavailable r _).
Qed.

Lemma processQuestion_request_gate_witness :
  let r := render_of active_state in
  let w := world_of active_state [a_voice] in
  let keyless := mkRender true true None active_state in
  count is_fetch (fst (processQuestion_begin r "What do you see?" w)) = 1
  /\ count is_fetch (fst (processQuestion_begin keyless "What do you see?" w)) = 0.
Proof.
  intros r w keyless. split.
  - destruct (processQuestion_request_gate r "What do you see?" w) as (H & _).
    destruct (H eq_refl) as (req & _ & _ & Hc & _). exact Hc.
  - destruct (processQuestion_request_gate keyless "What do you see?" w) as (_ & H).
    destruct (H eq_refl) as (_ & Hc & _). exact Hc.
Defined.

(** X17.  When the awaited analysis settles, [processQuestion] sends nothing
    more (there is no retry), registers no callback and clears the
    processing flag.  An answer becomes the displayed response and the
    error is cleared.  A failure's message, or a generic one when the
    failure has no message, becomes both the error and the displayed
    response.  The answer or message is handed to the speech engine when
    speech output is ready, and nothing is said when it is unavailable. *)
Theorem processQuestion_settles (r : Render) (settled : Query.Outcome string) (w : World) :
  let w' := processQuestion_resume r settled w in
  let shown := match settled with
               | Query.Returned response => response
               | Query.Threw message =>
                   if Str.truthy message then message else analysis_failed_message
               end in
  count is_fetch w' = count is_fetch w
  /\ isProcessing (st w') = false
  /\ assistantResponse (st w') = shown
  /\ error (st w') = match settled with Query.Returned _ => None | Query.Threw _ => Some shown end
  /\ (speech_ready r shown w = true -> handed_over shown None w w')
  /\ (speech_unavailable r shown = true -> silent w w')
  /\ incl (pending_callbacks w') (pending_callbacks w).
Proof.
  intros w' shown. subst w' shown.
  assert (Q : forall m x,
             trace x = trace w -> timers x = timers w -> synth_queue x = synth_queue w ->
             synth_cancelled x = synth_cancelled w -> utteranceRef x = utteranceRef w ->
             isSpeaking (st x) = isSpeaking (st w) ->
             speech_unavailable r m = true -> silent w (setIsProcessing false (say r m x))).
  { intros m x T Ti Qu C U I Hu. rewrite (say_unavailable r m x Hu). repeat split; assumption. }
  destruct settled as [response | message]; unfold processQuestion_resume, processQuestion_catch.
  - set (x := setError None (setAssistantResponse response w)).
    refine (conj (say_count is_fetch r response x eq_refl (fun _ => eq_refl)) (conj eq_refl _)).
    simpl. rewrite say_st.
    refine (conj _ (conj _ (conj (say_when_ready r response x)
              (conj (Q response x eq_refl eq_refl eq_refl eq_refl eq_refl eq_refl)
                 (say_pending r response x)))));
      now destruct (speech_unavailable r response).
  - set (m := if Str.truthy message then message else analysis_failed_message).
    set (x := setAssistantResponse m (setError (Some m) w)).
    refine (conj (say_count is_fetch r m x eq_refl (fun _ => eq_refl)) (conj eq_refl _)).
    simpl. rewrite say_st.
    refine (conj _ (conj _ (conj (say_when_ready r m x)
              (conj (Q m x eq_refl eq_refl eq_refl eq_refl eq_refl eq_refl)
                 (say_pending r m x)))));
      now destruct (speech_unavailable r m).
Qed.

Lemma processQuestion_settles_witness :
  let r := render_of active_state in
  let w := world_of active_state [a_voice] in
  synth_queue (processQuestion_resume r (Query.Returned "A red mug on a wooden table.") w)
  = [mkUtterance "A red mug on a wooden table." (Some a_voice) None]
  /\ error (st (processQuestion_resume r (Query.Threw "") w)) = Some analysis_failed_message.
Proof.
  intros r w. split.
  - destruct (processQuestion_settles r (Query.Returned "A red mug on a wooden table.") w)
      as (_ & _ & _ & _ & H & _). exact (proj1 (H eq_refl)).
  - destruct (processQuestion_settles r (Query.Threw "") w) as (_ & _ & _ & H & _). exact H.
Defined.

(** ** A turn that starts *)



(** X19.  When the listening prompt has been handed to the engine and the
    engine then finishes it, its completion callback starts recognition:
    one start call is made, after the prompt and not before, and the
    engine's queue is empty again. *)
Theorem prompt_end_starts_recognition (r r0 : Render) (w : World) :
  hasSpeechRecognition r = true ->
  is_granted (microphonePermission (view r)) = true ->
  isCameraActive (view r) = true ->
  isListening (view r) = false -> isProcessing (view r) = false ->
  speech_unavailable r listening_prompt = false ->
  voices w <> [] \/ isVoicesLoaded (view r) = true ->
  synth_fails w = false -> recognitionRef w = Some r0 -> rec_started w = false ->
  let w1 := startListening r w in
  let w2 := deliver_end w1 in
  count is_recognition_start w1 = count is_recognition_start w
  /\ count is_recognition_start w2 = S (count is_recognition_start w)
  /\ rec_started w2 = true
  /\ synth_queue w2 = []
  /\ isProcessing (st w2) = true
  /\ isSpeaking (st w2) = false.
Proof.
  intros Hr Hg Hc Hl Hp Hv Hvs Hf Href Hs w1 w2. subst w2 w1. unfold startListening.
  rewrite Hr, Hg, Hc, Hl, Hp. simpl.
  set (x := setError None (setAssistantResponse "" (setCurrentQuestion ""
              (setIsProcessing true w)))).
  destruct (speak_hands_over r listening_prompt (Some (CbStartRecognition r)) x Hv Hf)
    as (S1 & S2 & S3 & S4 & S5).
  specialize (S5 Hvs). specialize (S4 is_recognition_start eq_refl (fun _ => eq_refl)).
  change (recognitionRef x) with (recognitionRef w) in S2.
  change (rec_started x) with (rec_started w) in S3.
  change (count is_recognition_start x) with (count is_recognition_start w) in S4.
  set (w1 := speak r listening_prompt (Some (CbStartRecognition r)) x) in *.
  clearbody w1.
  unfold deliver_end. rewrite S5.
  unfold utterance_onend, invoke. cbn [u_onEnd run_callback].
  unfold startListening_prompted, recognition_start.
  change (recognitionRef (set_utteranceRef None (setIsSpeaking false
            (set_synth [] (synth_cancelled w1) w1)))) with (recognitionRef w1).
  change (rec_started (set_utteranceRef None (setIsSpeaking false
            (set_synth [] (synth_cancelled w1) w1)))) with (rec_started w1).
  rewrite S2, Href, Hl, S3, Hs. simpl.
  refine (conj S4 (conj _ (conj eq_refl (conj eq_refl _)))).
  - unfold count in *. simpl. now rewrite S4.
  - rewrite S1. split; reflexivity.
Qed.

Lemma prompt_end_starts_recognition_witness :
  let r := render_of active_state in
  let w := world_of active_state [a_voice] in
  count is_recognition_start (startListening r w) = 0
  /\ count is_recognition_start (deliver_end (startListening r w)) = 1.
Proof.
  intros r w.
  assert (V : voices w <> []) by discriminate.
  destruct (prompt_end_starts_recognition r r w eq_refl eq_refl eq_refl eq_refl eq_refl
              eq_refl (or_introl V) eq_refl eq_refl eq_refl) as (H1 & H2 & _).
  split; [exact H1 | exact H2].
Defined.

(** X20.  When the recogniser is already running as the prompt completes, the
    start call throws: the failure is recorded as the error and the
    processing flag is cleared, so the turn does not stay pending.  The
    failure message is handed to the speech engine when speech output is
    ready, and nothing is said when it is unavailable. *)
Theorem prompt_start_failure (r r0 : Render) (w : World) :
  recognitionRef w = Some r0 -> isListening (view r) = false -> rec_started w = true ->
  let w' := run_callback (CbStartRecognition r) w in
  error (st w') = Some cannot_start_message
  /\ isProcessing (st w') = false
  /\ (speech_ready r cannot_start_message w = true ->
      handed_over cannot_start_message None (emit EvRecognitionStart w) w')
  /\ (speech_unavailable r cannot_start_message = true ->
      silent (emit EvRecognitionStart w) w')
  /\ count is_recognition_start w' = S (count is_recognition_start w)
  /\ rec_started w' = true.
Proof.
  intros Href Hl Hs w'. subst w'. unfold run_callback, startListening_prompted, recognition_start.
  rewrite Href, Hl, Hs. simpl.
  set (x := setError (Some cannot_start_message) (emit EvRecognitionStart w)).
  destruct (say_frame r cannot_start_message x) as (_ & _ & _ & _ & F5 & _).
  rewrite say_st.
  refine (conj _ (conj eq_refl (conj _ (conj _ (conj _ _))))).
  - now destruct (speech_unavailable r cannot_start_message).
  - intros Hr. exact (say_when_ready r cannot_start_message x Hr).
  - intros Hu. rewrite (say_unavailable r cannot_start_message x Hu). repeat split.
  - exact (say_count is_recognition_start r cannot_start_message x eq_refl (fun _ => eq_refl)).
  - rewrite F5. exact Hs.
Qed.

Lemma prompt_start_failure_witness :
  let r := render_of active_state in
  let w := set_rec_started true (world_of active_state [a_voice]) in
  error (st (run_callback (CbStartRecognition r) w)) = Some cannot_start_message
  /\ isProcessing (st (run_callback (CbStartRecognition r) w)) = false
  /\ synth_queue (run_callback (CbStartRecognition r) w)
     = [mkUtterance cannot_start_message (Some a_voice) None].
Proof.
  intros r w.
  destruct (prompt_start_failure r r w eq_refl eq_refl eq_refl) as (H1 & H2 & H3 & _).
  split; [exact H1 | split; [exact H2 | exact (proj1 (H3 eq_refl))]].
Defined.

(** X21.  Pressing the button again while the render shows a turn listening or
    processing cancels it: recognition is asked to stop, the processing
    flag is cleared, and nothing is said, started or scheduled. *)
Theorem startListening_cancels_turn (r : Render) (w : World) :
  hasSpeechRecognition r = true ->
  is_granted (microphonePermission (view r)) = true ->
  isCameraActive (view r) = true ->
  isListening (view r) = true \/ isProcessing (view r) = true ->
  let w' := startListening r w in
  isProcessing (st w') = false
  /\ trace w' = (match recognitionRef w with
                 | Some _ => [EvRecognitionStop]
                 | None => []
                 end ++ trace w)%list
  /\ timers w' = timers w
  /\ synth_queue w' = synth_queue w
  /\ error (st w') = error (st w)
  /\ isListening (st w') = isListening (st w).
Proof.
  intros Hr Hg Hc Hb w'. subst w'. unfold startListening. rewrite Hr, Hg, Hc. simpl.
  assert (B : isListening (view r) || isProcessing (view r) = true)
    by (destruct Hb as [-> | ->]; [reflexivity | apply orb_true_r]).
  rewrite B. destruct (recognitionRef w); repeat split.
Qed.

Lemma startListening_cancels_turn_witness :
  let r := render_of muted_state in
  let w := world_of muted_state [a_voice] in
  isProcessing (view r) = true
  /\ isProcessing (st (startListening r w)) = false
  /\ trace (startListening r w) = [EvRecognitionStop].
Proof.
  intros r w. split; [reflexivity | ].
  destruct (startListening_cancels_turn r w eq_refl eq_refl eq_refl (or_intror eq_refl))
    as (H1 & H2 & _).
  split; [exact H1 | exact H2].
Defined.

(** ** After a recognition error *)

(** X22.  Whatever the error code, the error handler leaves the session neither
    listening nor processing, starts nothing, sends nothing, and
    registers no continuation. *)
Theorem recognition_onerror_settles (r : Render) (code : string) (w : World) :
  let w' := recognition_onerror r code w in
  isListening (st w') = false
  /\ isProcessing (st w') = false
  /\ count is_recognition_start w' = count is_recognition_start w
  /\ count is_fetch w' = count is_fetch w
  /\ incl (pending_callbacks w') (pending_callbacks w)
  /\ incl (restart_timers w') (restart_timers w).
Proof.
  intros w'. subst w'. unfold recognition_onerror.
  repeat break_if; simpl;
    repeat match goal with
      | H : (_, _, _) = (_, _, _) |- _ => injection H as <- <- <-
      end; simpl;
    try (repeat split; apply incl_refl);
    try discriminate;
    match goal with
    | |- context [say ?a ?m ?x] =>
        rewrite (say_st a m x);
        refine (conj _ (conj eq_refl
                 (conj (say_count is_recognition_start a m x eq_refl (fun _ => eq_refl))
                   (conj (say_count is_fetch a m x eq_refl (fun _ => eq_refl))
                     (conj (say_pending a m x) (say_restart_timers a m x))))));
        now destruct (speech_unavailable a m)
    end.
Qed.

(** ** Starting and stopping the camera *)

(** Splits on whether the video element exists where it is bound or
    unbound. *)
Ltac video_cases :=
  match goal with
  | |- context [unbind_video ?y] =>
      let V := fresh "V" in unfold unbind_video; destruct (videoRef y) eqn:V
  | |- context [bind_video ?s ?y] =>
      let V := fresh "V" in unfold bind_video; destruct (videoRef y) eqn:V
  end.

Lemma unbind_video_src y v : videoRef (unbind_video y) = Some v -> srcObject v = None.
Proof.
  unfold unbind_video. destruct (videoRef y) eqn:V; simpl; [ | congruence].
  intros H. injection H as <-. reflexivity.
Qed.


(** X24.  Turning the camera off releases the device: the tracks of the
    session's stream are stopped, the camera is marked inactive, the
    stream, the captured image and the error are cleared, the video
    element is unbound, no stream is requested, and no facing is left
    capturing. *)
Theorem toggleCamera_off_releases (r : Render) (supported : bool) (answer : UserMedia)
    (w : World) (s : MediaStream) :
  isCameraActive (view r) = true -> mediaStream (view r) = Some s ->
  let w' := toggleCamera r supported answer w in
  isCameraActive (st w') = false
  /\ mediaStream (st w') = None
  /\ capturedImage (st w') = None
  /\ error (st w') = None
  /\ existsb (MediaStream_eqb s) (live_streams w') = false
  /\ incl (live_streams w') (live_streams w)
  /\ (forall v, videoRef w' = Some v -> srcObject v = None)
  /\ count is_getUserMedia w' = count is_getUserMedia w
  /\ capturing user w' = false /\ capturing environment w' = false.
Proof.
  intros Ha Hm w'. subst w'. unfold toggleCamera, toggleCamera_begin. rewrite Ha, Hm.
  set (x := setError None _).
  destruct (say_frame r camera_stopped_message x) as (_ & F2 & _ & F4 & _).
  assert (S : st (say r camera_stopped_message x)
              = st x \/ st (say r camera_stopped_message x) = with_isSpeaking false (st x))
    by (rewrite say_st; destruct (speech_unavailable r camera_stopped_message); auto).
  assert (L : live_streams x
              = filter (fun y => negb (MediaStream_eqb y s)) (live_streams w))
    by (subst x; video_cases; reflexivity).
  assert (A : isCameraActive (st (say r camera_stopped_message x)) = false
              /\ mediaStream (st (say r camera_stopped_message x)) = None
              /\ capturedImage (st (say r camera_stopped_message x)) = None
              /\ error (st (say r camera_stopped_message x)) = None)
    by (destruct S as [S | S]; rewrite S; subst x; video_cases; repeat split).
  destruct A as (A1 & A2 & A3 & A4).
  simpl. unfold capturing. rewrite A1, A2, A3, A4, F4, F2, L.
  repeat split.
  - apply stopped_not_live.
  - intros y Hy. apply filter_In in Hy. tauto.
  - subst x. intros v' Hv.
    exact (unbind_video_src (setIsCameraActive false (stop_tracks s w)) v' Hv).
  - rewrite (say_count is_getUserMedia r camera_stopped_message x eq_refl (fun _ => eq_refl)).
    subst x. video_cases; reflexivity.
Qed.

Lemma toggleCamera_off_releases_witness :
  let r := render_of active_state in
  let w := world_of active_state [a_voice] in
  capturing environment w = true
  /\ live_streams (toggleCamera r true (Refused "unused") w) = []
  /\ capturing environment (toggleCamera r true (Refused "unused") w) = false.
Proof.
  intros r w. split; [reflexivity | ].
  destruct (toggleCamera_off_releases r true (Refused "unused") w back_stream eq_refl eq_refl)
    as (_ & _ & _ & _ & _ & _ & _ & _ & _ & H).
  split; [reflexivity | exact H].
Defined.

(** X25.  A camera that cannot be started stays off: whether the browser has no
    [getUserMedia] (then none is called) or the request is refused, the
    camera flag, the stream and the live streams are as before, and the
    recorded error starts with "Unable to access camera. " and ends with
    the advice for the failure: its own for a denied permission, a
    missing camera and a busy camera, a general one for anything else. *)
Theorem toggleCamera_start_failure (r : Render) (supported : bool) (name : string)
    (w : World) :
  isCameraActive (view r) = false ->
  let w' := toggleCamera r supported (Refused name) w in
  let cause := if supported then name else "Error" in
  error (st w') = Some (camera_error_message cause)
  /\ String.prefix "Unable to access camera. " (camera_error_message cause) = true
  /\ isCameraActive (st w') = isCameraActive (st w)
  /\ mediaStream (st w') = mediaStream (st w)
  /\ live_streams w' = live_streams w
  /\ (supported = false -> count is_getUserMedia w' = count is_getUserMedia w)
  /\ (speech_unavailable r (camera_error_message cause) = false ->
      voiced (camera_error_message cause) None w w').
Proof.
  intros Ha w' cause. subst w' cause.
  unfold toggleCamera, toggleCamera_begin, toggleCamera_resume, toggleCamera_catch.
  rewrite Ha.
  destruct supported; simpl negb; cbv iota.
  - set (m := camera_error_message name).
    set (x := emit (EvGetUserMedia (cameraMode (view r))) w).
    destruct (announce_state r m x) as (S1 & _ & _ & S4 & _ & S6 & _).
    destruct (say_frame r m (setError (Some m) x)) as (_ & _ & _ & F4 & _).
    refine (conj S1 (conj (prefix_append _ _) (conj S4 (conj S6 (conj F4 (conj _ _)))))).
    + discriminate.
    + intros Hv. destruct (say_voiced r m (setError (Some m) x) Hv)
        as [(pre & v & Ht & Hi) | (id & r' & Hi & Hn)].
      * left. exists (pre ++ [EvGetUserMedia (cameraMode (view r))])%list, v.
        split; [ | apply in_or_app; auto].
        rewrite Ht. simpl. now rewrite <- app_assoc.
      * right. exists id, r'. auto.
  - set (m := camera_error_message "Error").
    destruct (announce_state r m w) as (S1 & _ & _ & S4 & _ & S6 & _).
    destruct (say_frame r m (setError (Some m) w)) as (_ & _ & _ & F4 & _).
    refine (conj S1 (conj (prefix_append _ _) (conj S4 (conj S6 (conj F4 (conj _ _)))))).
    + intros _. exact (say_count is_getUserMedia r m (setError (Some m) w)
                         eq_refl (fun _ => eq_refl)).
    + exact (announce_voiced r m w).
Qed.

Lemma toggleCamera_start_failure_witness :
  let r := render_of idle_state in
  let w := world_of idle_state [a_voice] in
  error (st (toggleCamera r true (Refused "NotFoundError") w))
  = Some "Unable to access camera. No camera found on this device."
  /\ isCameraActive (st (toggleCamera r true (Refused "NotFoundError") w)) = false.
Proof.
  intros r w.
  destruct (toggleCamera_start_failure r true "NotFoundError" w eq_refl)
    as (H1 & _ & H3 & _).
  split; [exact H1 | exact H3].
Defined.

(** X26.  When the camera starts, the granted stream is live and recorded as
    the session's stream, the camera is marked active, the error is
    cleared, one stream was requested, and the page is the camera page
    when the render showed another one.  The stream is bound to the video
    element only if one is mounted when the request settles: then the
    element shows the stream; otherwise there is still no element, and
    [captureImage] yields nothing although the camera is marked active. *)
Theorem toggleCamera_start_success (r : Render) (stream : MediaStream) (w : World) :
  isCameraActive (view r) = false ->
  let w' := toggleCamera r true (Granted stream) w in
  isCameraActive (st w') = true
  /\ mediaStream (st w') = Some stream
  /\ error (st w') = None
  /\ live_streams w' = stream :: live_streams w
  /\ (forall v, videoRef w = Some v ->
        videoRef w' = Some (mkVideo (readyState v) (videoWidth v) (videoHeight v) (frame v)
                              (Some stream)))
  /\ (videoRef w = None -> videoRef w' = None /\ captureImage w' = (None, w'))
  /\ (is_camera_page (currentPage (view r)) = false -> currentPage (st w') = camera)
  /\ count is_getUserMedia w' = S (count is_getUserMedia w).
Proof.
  intros Ha w'. subst w'. unfold toggleCamera, toggleCamera_begin, toggleCamera_resume.
  rewrite Ha. simpl negb. cbv iota.
  set (w0 := emit (EvGetUserMedia (cameraMode (view r))) w).
  set (x := setError None _).
  destruct (say_frame r camera_started_message x) as (_ & F2 & _ & F4 & _).
  assert (L : live_streams x = stream :: live_streams w)
    by (subst x; video_cases; reflexivity).
  assert (V1 : forall v, videoRef w = Some v ->
               videoRef x = Some (mkVideo (readyState v) (videoWidth v) (videoHeight v)
                                    (frame v) (Some stream))).
  { intros v Hv. subst x. unfold bind_video.
    change (videoRef (set_live_streams (stream :: live_streams w0) w0)) with (videoRef w).
    rewrite Hv. reflexivity. }
  assert (V2 : videoRef w = None -> videoRef x = None).
  { intros Hv. subst x. unfold bind_video.
    change (videoRef (set_live_streams (stream :: live_streams w0) w0)) with (videoRef w).
    rewrite Hv. exact Hv. }
  assert (A : isCameraActive (st (say r camera_started_message x)) = true
              /\ mediaStream (st (say r camera_started_message x)) = Some stream
              /\ error (st (say r camera_started_message x)) = None).
  { rewrite say_st. destruct (speech_unavailable r camera_started_message);
      subst x; video_cases; repeat split. }
  destruct A as (A1 & A2 & A3).
  assert (C : count is_getUserMedia (say r camera_started_message x)
              = S (count is_getUserMedia w)).
  { rewrite (say_count is_getUserMedia r camera_started_message x eq_refl (fun _ => eq_refl)).
    subst x. video_cases; reflexivity. }
  assert (N : forall y, videoRef y = None -> captureImage y = (None, y))
    by (intros y Hy; unfold captureImage; now rewrite Hy).
  destruct (is_camera_page (currentPage (view r))); simpl.
  - refine (conj A1 (conj A2 (conj A3 (conj _ (conj _ (conj _ (conj _ C))))))).
    + now rewrite F4.
    + intros v Hv. rewrite F2. exact (V1 v Hv).
    + intros Hv. assert (Hn : videoRef (say r camera_started_message x) = None)
        by (rewrite F2; exact (V2 Hv)).
      split; [exact Hn | exact (N _ Hn)].
    + discriminate.
  - refine (conj A1 (conj A2 (conj A3 (conj _ (conj _ (conj _ (conj _ C))))))).
    + now rewrite F4.
    + intros v Hv. rewrite F2. exact (V1 v Hv).
    + intros Hv.
      assert (Hn : videoRef (setCurrentPage camera (say r camera_started_message x)) = None)
        by (simpl; rewrite F2; exact (V2 Hv)).
      split; [exact Hn | exact (N _ Hn)].
    + reflexivity.
Qed.

Lemma toggleCamera_start_success_witness :
  let r := render_of idle_state in
  let w := world_of idle_state [a_voice] in
  let unmounted := set_videoRef None w in
  isCameraActive (view r) = false
  /\ live_streams (toggleCamera r true (Granted back_stream) w) = [back_stream]
  /\ fst (captureImage (toggleCamera r true (Granted back_stream) unmounted)) = None.
Proof.
  intros r w unmounted. split; [reflexivity | ].
  split.
  - destruct (toggleCamera_start_success r back_stream w eq_refl) as (_ & _ & _ & H & _).
    exact H.
  - destruct (toggleCamera_start_success r back_stream unmounted eq_refl)
      as (_ & _ & _ & _ & _ & H & _).
    destruct (H eq_refl) as (_ & Hc). now rewrite Hc.
Defined.

(** ** A camera switch that succeeds *)

(** X27.  When the other camera is granted during a switch of a running
    camera, the old stream is stopped, the new one is live and becomes
    the session's stream, the mode is the opposite one, one stream was
    requested, with that mode, and the new stream's facing is capturing. *)
Theorem switchCamera_success (r : Render) (old stream : MediaStream) (w : World) :
  isCameraActive (view r) = true -> mediaStream (view r) = Some old ->
  let w' := switchCamera r (Granted stream) w in
  cameraMode (st w') = opposite (cameraMode (view r))
  /\ mediaStream (st w') = Some stream
  /\ live_streams w'
     = stream :: filter (fun x => negb (MediaStream_eqb x old)) (live_streams w)
  /\ (MediaStream_eqb old stream = false ->
      existsb (MediaStream_eqb old) (live_streams w') = false)
  /\ (exists rest, trace w' = (rest ++ EvGetUserMedia (opposite (cameraMode (view r)))
                                 :: EvTrackStop old :: trace w)%list
                   /\ List.length (filter is_getUserMedia rest) = 0)
  /\ (isCameraActive (st w) = true -> capturing (stream_facing stream) w' = true).
Proof.
  intros Ha Hm w'. subst w'. unfold switchCamera, switchCamera_begin, switchCamera_resume.
  rewrite Ha, Hm.
  set (m := switched_message (opposite (cameraMode (view r)))).
  set (x := setMediaStream (Some stream) _).
  destruct (say_frame r m x) as (_ & _ & _ & F4 & _).
  assert (L : live_streams x
              = stream :: filter (fun y => negb (MediaStream_eqb y old)) (live_streams w))
    by (subst x; video_cases; reflexivity).
  assert (T : trace x = EvGetUserMedia (opposite (cameraMode (view r)))
                          :: EvTrackStop old :: trace w)
    by (subst x; video_cases; reflexivity).
  assert (A : cameraMode (st (say r m x)) = opposite (cameraMode (view r))
              /\ mediaStream (st (say r m x)) = Some stream
              /\ isCameraActive (st (say r m x)) = isCameraActive (st w)).
  { rewrite say_st. destruct (speech_unavailable r m); subst x; video_cases;
      repeat split. }
  destruct A as (A1 & A2 & A3).
  assert (Q : MediaStream_eqb stream stream = true).
  { unfold MediaStream_eqb. rewrite Nat.eqb_refl. now destruct (stream_facing stream). }
  assert (F : CameraMode_eqb (stream_facing stream) (stream_facing stream) = true)
    by now destruct (stream_facing stream).
  refine (conj A1 (conj A2 (conj _ (conj _ (conj _ _))))).
  - now rewrite F4.
  - intros Hd. rewrite F4, L. simpl. rewrite Hd. apply stopped_not_live.
  - rewrite <- T. clear. unfold say, speak_with, invoke.
    destruct (speech_unavailable r m) eqn:E; [exists []; split; reflexivity | ].
    destruct (prepared r x (available_synthesis _ _ E)) as (_ & _ & _ & _ & P5).
    set (w2 := clear_speech_timeout (stopSpeaking r x)) in *. clearbody w2.
    unfold attemptSpeak, setTimeout.
    repeat break_if; simpl; destruct P5 as [P5 | P5]; rewrite P5;
      first [ exists []; split; reflexivity
            | exists [EvSynthCancel]; split; reflexivity
            | eexists [_]; split; reflexivity
            | eexists [_; _]; split; reflexivity ].
  - intros Hw. unfold capturing. rewrite A3, Hw, A2, F4, L. simpl. now rewrite Q, F.
Qed.

Lemma switchCamera_success_witness :
  let r := render_of active_state in
  let w := world_of active_state [a_voice] in
  let front := mkStream 2 user in
  live_streams (switchCamera r (Granted front) w) = [front]
  /\ capturing user (switchCamera r (Granted front) w) = true.
Proof.
  intros r w front.
  destruct (switchCamera_success r back_stream front w eq_refl eq_refl)
    as (_ & _ & H3 & _ & _ & H6).
  split; [rewrite H3; reflexivity | exact (H6 eq_refl)].
Defined.

(** ** Leaving the page *)

(** X29.  The cleanup that runs when the component unmounts belongs to the
    mount render, whose media stream is [null].  It stops speech (where
    synthesis exists) and asks recognition to stop, but it stops no
    track: every stream that was live stays live. *)
Theorem unmount_keeps_streams (r : Render) (w : World) :
  mediaStream (view r) = None ->
  let w' := unmount r w in
  live_streams w' = live_streams w
  /\ count is_device w' = count is_device w
  /\ recognitionRef w' = recognitionRef w
  /\ (recognitionRef w <> None -> hd_error (trace w') = Some EvRecognitionStop)
  /\ (hasSpeechSynthesis r = true ->
      synth_queue w' = [] /\ isSpeaking (st w') = false /\ utteranceRef w' = None).
Proof.
  intros Hm w'. subst w'. unfold unmount. rewrite Hm.
  unfold stopSpeaking, clear_speech_timeout, synth_busy, synth_cancel, clearTimeout,
    recognition_stop, count.
  destruct (hasSpeechSynthesis r); simpl;
    destruct (synth_queue w) eqn:Q; simpl;
    destruct (speechTimeoutRef w) eqn:T; simpl; rewrite ?T; simpl;
    destruct (recognitionRef w) eqn:R; simpl; rewrite ?Q;
    repeat split; try congruence; try discriminate.
Qed.

Lemma unmount_keeps_streams_witness :
  let r := mkRender true true (Some "sk-test") initial_state in
  let w := world_of active_state [a_voice] in
  mediaStream (view r) = None
  /\ live_streams w = [back_stream]
  /\ live_streams (unmount r w) = live_streams w.
Proof.
  intros r w. split; [reflexivity | split; [reflexivity | ]].
  exact (proj1 (unmount_keeps_streams r w eq_refl)).
Defined.

(** ** The loading screen *)

(** X30.  Within one run of its interval, after [n] ticks the loading screen shows
    min(2n, 100) percent.  It keeps ticking for the first 49 ticks; the
    50th tick reaches 100, clears the interval and schedules the
    completion, once; later ticks change nothing.  From the first tick
    on, the text is the entry of the list at a seventeenth of the
    progress, so it ends with the last entry. *)
Theorem loading_progress (n : nat) :
  let s := LoadingScreen.ticks n LoadingScreen.start in
  LoadingScreen.progress s = Nat.min (2 * n) 100
  /\ LoadingScreen.ticking s = (n <? 50)%nat
  /\ LoadingScreen.completions s = (if (n <? 50)%nat then 0 else 1)
  /\ (1 <= n ->
      LoadingScreen.loadingText s
      = nth (LoadingScreen.progress s / 17) LoadingScreen.texts "").
Proof.
  induction n as [|n IH]; [repeat split; simpl; lia | ].
  cbn zeta in *. destruct IH as (P & T & C & L).
  change (LoadingScreen.ticks (S n) LoadingScreen.start)
    with (LoadingScreen.tick (LoadingScreen.ticks n LoadingScreen.start)).
  set (s := LoadingScreen.ticks n LoadingScreen.start) in *. clearbody s.
  unfold LoadingScreen.tick. rewrite T.
  destruct (Nat.ltb_spec n 50) as [Hlt | Hge]; simpl negb; cbv iota.
  - rewrite P. replace (Nat.min (2 * n) 100) with (2 * n) by lia.
    assert (I : (2 * n + 2) / 17 < 6)
      by (apply Nat.Div0.div_lt_upper_bound; lia).
    assert (E : nth_error LoadingScreen.texts ((2 * n + 2) / 17)
                = Some (nth ((2 * n + 2) / 17) LoadingScreen.texts ""))
      by (apply nth_error_nth'; exact I).
    rewrite E.
    destruct (Nat.leb_spec 100 (2 * n + 2)) as [Hdone | Hmore]; simpl.
    + assert (n = 49) by lia. subst n. repeat split. now rewrite C.
    + destruct (Nat.ltb_spec (S n) 50); [ | lia].
      repeat split; try lia.
  - destruct (Nat.ltb_spec (S n) 50); [lia | ].
    destruct (Nat.ltb_spec n 50); [lia | ].
    repeat split; try lia.
    + exact T.
    + intros _. apply L. lia.
Qed.

Lemma loading_progress_witness :
  LoadingScreen.loadingText (LoadingScreen.ticks 50 LoadingScreen.start)
  = "Ready to See the World!"
  /\ LoadingScreen.completions (LoadingScreen.ticks 75 LoadingScreen.start) = 1.
Proof.
  split.
  - destruct (loading_progress 50) as (P & _ & _ & L). rewrite (L ltac:(lia)), P.
    reflexivity.
  - destruct (loading_progress 75) as (_ & _ & C & _). exact C.
Defined.

(** ** More on the failures of the vision query *)

(** X12.  A missing credential and an empty one are the same: the call fails
    with the configuration message and sends nothing, whatever the
    network would have answered. *)
Theorem analyze_unconfigured_sends_nothing (key : option string)
    (network : Request -> Query.FetchOutcome) (image question : string) :
  key = None \/ key = Some "" ->
  Query.analyzeImageWithOpenAI key network image question
  = ([], Query.Threw "OpenAI API key is not configured. Please check your environment variables.").
Proof. intros [-> | ->]; reflexivity. Qed.

Lemma analyze_unconfigured_sends_nothing_witness :
  fst (Query.analyzeImageWithOpenAI (Some "")
         (fun _ => Query.FetchRejected "offline") "data:," "What do you see?") = [].
Proof.
  rewrite (analyze_unconfigured_sends_nothing (Some "") _ "data:," "What do you see?"
             (or_intror eq_refl)).
  reflexivity.
Defined.

(** X14.  A 2xx response whose body is a JSON object, array, string, number or
    boolean without a [choices] entry, or with an empty [choices] array,
    makes the call fail as an invalid response, after its one request. *)
Theorem analyze_without_choices (key : option string) (k : string)
    (network : Request -> Query.FetchOutcome) (image question : string)
    (resp : Query.Response) (data : Query.Json) :
  Query.key_present key = Some k ->
  network (Query.build_request k image question) = Query.FetchResolved resp ->
  Query.ok resp = true -> Query.body resp = Query.Parsed data -> data <> Query.JNull ->
  Query.prop "choices" data = None \/ Query.prop "choices" data = Some (Query.JArr []) ->
  Query.analyzeImageWithOpenAI key network image question
  = ([Query.build_request k image question], Query.Threw "Invalid response from AI service").
Proof.
  intros Hk Hn Ho Hb Hd Hc.
  assert (A : Query.answer_of data = None)
    by (unfold Query.answer_of; destruct Hc as [-> | ->]; reflexivity).
  pose proof (analyze_missing_answer key k network image question resp data
                Hk Hn Ho Hb Hd A) as M.
  unfold Query.analyzeImageWithOpenAI in *. rewrite Hk in *. simpl in *. now rewrite M.
Qed.

Lemma analyze_without_choices_witness :
  let empty := Query.JObj [("id", Query.JStr "chatcmpl-1"); ("choices", Query.JArr [])] in
  let resp := Query.mkResponse 200 "OK" (Query.Parsed empty) in
  snd (Query.analyzeImageWithOpenAI (Some "sk-test") (fun _ => Query.FetchResolved resp)
         "data:," "What do you see?")
  = Query.Threw "Invalid response from AI service".
Proof.
  intros empty resp.
  rewrite (analyze_without_choices (Some "sk-test") "sk-test"
             (fun _ => Query.FetchResolved resp) "data:," "What do you see?" resp empty
             eq_refl eq_refl eq_refl eq_refl ltac:(discriminate) (or_intror eq_refl)).
  reflexivity.
Defined.

(** ** Witnesses of earlier lemmas *)

Lemma speak_unavailable_once_witness :
  let r := render_of muted_state in
  let w := world_of muted_state [a_voice] in
  speech_unavailable r "Camera started." = true
  /\ count (is_callback 7) (speak r "Camera started." (Some (CbExternal 7)) w) = 1.
Proof.
  intros r w. split; [reflexivity | ].
  exact (proj1 (speak_unavailable_once r "Camera started." 7 w eq_refl)).
Defined.

Lemma utterance_settles_once_witness :
  let u := mkUtterance "Camera started." (Some a_voice) (Some (CbExternal 7)) in
  let w := world_of active_state [a_voice] in
  count (is_callback 7) (utterance_onend run_callback u w) = 1
  /\ count (is_callback 7) (utterance_onerror run_callback u "synthesis-failed" w) = 1.
Proof.
  intros u w. exact (utterance_settles_once u "synthesis-failed" 7 w eq_refl).
Defined.

Lemma speak_defers_without_voices_witness :
  let r := render_of early_state in
  let w := world_of early_state [] in
  exists id, speechTimeoutRef (speak r "Camera started." (Some (CbExternal 7)) w) = Some id
             /\ synth_queue (speak r "Camera started." (Some (CbExternal 7)) w) = [].
Proof.
  intros r w.
  destruct (speak_defers_without_voices r "Camera started." (Some (CbExternal 7)) w
              eq_refl eq_refl eq_refl) as (id & H1 & _ & H3 & _).
  exists id. split; assumption.
Defined.

Lemma switchCamera_refused_witness :
  let r := render_of active_state in
  let w := world_of active_state [a_voice] in
  cameraMode (st (switchCamera r (Refused "NotAllowedError") w)) = environment
  /\ capturing environment (switchCamera r (Refused "NotAllowedError") w) = false.
Proof.
  intros r w.
  destruct (switchCamera_refused r "NotAllowedError" w back_stream eq_refl eq_refl)
    as (H1 & _ & _ & _ & H5).
  split; [exact H1 | exact (proj2 (H5 eq_refl))].
Defined.

Lemma restart_after_any_error_witness :
  let r := render_of active_state in
  let w := world_of active_state [a_voice] in
  exists id, In (mkTimer id restart_delay TRestartRecognition)
                (timers (deliver_error_then_end r "network" w)).
Proof.
  intros r w. exact (restart_after_any_error r "network" w eq_refl eq_refl eq_refl).
Defined.
